(** * PySQL: the DataManager class of [src/PySQL/DataManager.py]

    A shallow embedding of the store gateway (table creation, bulk load,
    retrieval) and of the statistics engine (categorical and numerical
    summaries) together with the properties stated about them.

    Conventions of the embedding:
    - a Python exception is a value of [exn]; a call that may raise returns
      [result A];
    - a pandas table is a header with its rows ([DataFrame]); a missing value
      is the cell [NA];
    - a Python [dict] of lists is an association list in insertion order;
    - a float is an IEEE-754 binary64 number ([spec_float], precision 53,
      maximal exponent 1024) and the arithmetic is the correctly rounded one
      of [SpecFloat]; the sum of a column is taken in the order of numpy's
      pairwise summation, the missing cells counting for zero;
    - the database session is a log of the requests sent to the backend, whose
      answers are given by an arbitrary [backend]. *)

From Stdlib Require Import ZArith List String Ascii Bool Lia Permutation.
From Stdlib Require Import DecimalString SpecFloat.
Import ListNotations.

Local Open Scope string_scope.
Local Open Scope list_scope.

(** ** Exceptions and the error monad *)

Inductive exn : Type :=
| KeyError (key : string)
| KeyErrorNotInIndex (missing : list string)
| ZeroDivisionError
| ValueError (msg : string)
| OverflowError
| FileNotFoundError (path : string)
| Psycopg2Error (pgerror : option string)
| Exception (arg : option string).

Inductive result (A : Type) : Type :=
| Ok (a : A)
| Raise (e : exn).

Arguments Ok {A} a.
Arguments Raise {A} e.

Definition bind {A B : Type} (c : result A) (k : A -> result B) : result B :=
  match c with
  | Ok a => k a
  | Raise e => Raise e
  end.

Notation "x <- c ;; k" := (bind c (fun x => k))
  (at level 61, c at next level, right associativity).
Notation "' p <- c ;; k" := (bind c (fun x => let 'p := x in k))
  (at level 61, p pattern, c at next level, right associativity).

(** A [for] loop whose body updates the state [s] and may raise. *)
Fixpoint for_each {A S : Type} (l : list A) (body : A -> S -> result S) (s : S)
  : result S :=
  match l with
  | [] => Ok s
  | x :: l' => s' <- body x s ;; for_each l' body s'
  end.

(** The name of the Python class of an exception. *)
Definition class_name (e : exn) : string :=
  match e with
  | KeyError _ => "KeyError"
  | KeyErrorNotInIndex _ => "KeyError"
  | ZeroDivisionError => "ZeroDivisionError"
  | ValueError _ => "ValueError"
  | OverflowError => "OverflowError"
  | FileNotFoundError _ => "FileNotFoundError"
  | Psycopg2Error _ => "psycopg2.Error"
  | Exception _ => "Exception"
  end.

(** ** Strings *)

(** An f-string is the concatenation of its pieces. *)
Definition fstr (parts : list string) : string := String.concat "" parts.

(** [str(n)] for a Python integer. *)
Definition str_Z (z : Z) : string := NilZero.string_of_int (Z.to_int z).
Definition str_nat (n : nat) : string := str_Z (Z.of_nat n).

(** [sep.join(l)] *)
Definition join (sep : string) (l : list string) : string := String.concat sep l.

(** Number of occurrences of a character. *)
Fixpoint count_char (c : ascii) (s : string) : nat :=
  match s with
  | EmptyString => 0
  | String a s' => (if Ascii.eqb a c then 1 else 0) + count_char c s'
  end.

(** [s.replace(c, with_)] for a one-character pattern. *)
Fixpoint replace_char (c : ascii) (with_ : string) (s : string) : string :=
  match s with
  | EmptyString => EmptyString
  | String a s' =>
      if Ascii.eqb a c then String.append with_ (replace_char c with_ s')
      else String a (replace_char c with_ s')
  end.

(** ** Floats (binary64) and their formatting *)

Definition float := spec_float.

Definition fprec : Z := 53.
Definition femax : Z := 1024.

Definition float_of_Z (z : Z) : float := binary_normalize fprec femax z 0 false.
Definition float_of_nat (n : nat) : float := float_of_Z (Z.of_nat n).
Definition fadd : float -> float -> float := SFadd fprec femax.
Definition fsub : float -> float -> float := SFsub fprec femax.
Definition fmul : float -> float -> float := SFmul fprec femax.
Definition fdiv : float -> float -> float := SFdiv fprec femax.
Definition fsqrt : float -> float := SFsqrt fprec femax.
Definition flt : float -> float -> bool := SFltb.

Definition is_nan (x : float) : bool :=
  match x with S754_nan => true | _ => false end.

(** [float(n)] for a Python integer: too large an integer raises. *)
Definition py_float_of_int (z : Z) : result float :=
  match float_of_Z z with
  | S754_infinity _ => Raise OverflowError
  | f => Ok f
  end.

(** [a / b] on Python integers (counts below 2^53, which are exact floats). *)
Definition py_truediv (a b : nat) : result float :=
  match b with
  | O => Raise ZeroDivisionError
  | S _ => Ok (fdiv (float_of_nat a) (float_of_nat b))
  end.

(** [a / b] when one operand is a numpy integer: never raises, a zero divisor
    gives an infinity or nan. *)
Definition np_truediv (a b : nat) : float :=
  fdiv (float_of_nat a) (float_of_nat b).

(** [n / d] rounded to the nearest integer, ties to even ([0 <= n], [0 < d]). *)
Definition round_half_even (n d : Z) : Z :=
  let q := (n / d)%Z in
  match (2 * (n mod d) ?= d)%Z with
  | Lt => q
  | Gt => (q + 1)%Z
  | Eq => if Z.even q then q else (q + 1)%Z
  end.

(** The exact value [m * 2^e], in hundredths, correctly rounded. *)
Definition hundredths (m : positive) (e : Z) : Z :=
  if (0 <=? e)%Z then (100 * Zpos m * 2 ^ e)%Z
  else round_half_even (100 * Zpos m) (2 ^ (- e)).

Definition sign_str (s : bool) : string := if s then "-" else "".

Definition two_digits (n : Z) : string :=
  if (n <? 10)%Z then fstr ["0"; str_Z n] else str_Z n.

(** [f"{x:.2f}"] *)
Definition format_2f (x : float) : string :=
  match x with
  | S754_nan => "nan"
  | S754_infinity s => fstr [sign_str s; "inf"]
  | S754_zero s => fstr [sign_str s; "0.00"]
  | S754_finite s m e =>
      let h := hundredths m e in
      fstr [sign_str s; str_Z (h / 100); "."; two_digits (h mod 100)]
  end.

(** [f"{x:.2%}"]: the value is multiplied by 100 as a float, then printed
    with two decimals and a percent sign. *)
Definition format_2pct (x : float) : string :=
  fstr [format_2f (fmul x (float_of_Z 100)); "%"].

(** ** Tables *)

(** A cell: a missing value, a text or an integer. *)
Inductive cell : Type :=
| NA
| Str (s : string)
| Num (z : Z).

(** Identity of cells, as used when hashing values ([unique]): all missing
    values are one value. *)
Definition cell_eqb (a b : cell) : bool :=
  match a, b with
  | NA, NA => true
  | Str s, Str s' => String.eqb s s'
  | Num z, Num z' => Z.eqb z z'
  | _, _ => false
  end.

(** The element-wise comparison [series == value]: a missing value is equal
    to nothing, itself included. *)
Definition eq_cell (a b : cell) : bool :=
  match a, b with
  | NA, _ | _, NA => false
  | _, _ => cell_eqb a b
  end.

Definition isna (a : cell) : bool :=
  match a with NA => true | _ => false end.

(** [str(value)], as interpolated in an f-string. *)
Definition str_cell (a : cell) : string :=
  match a with
  | NA => "nan"
  | Str s => s
  | Num z => str_Z z
  end.

Definition row := list cell.

Record DataFrame : Type := mkDataFrame {
  columns : list string;
  rows : list row
}.

(** Column labels are distinct and every row has one cell per column. *)
Definition wf_table (df : DataFrame) : Prop :=
  NoDup (columns df) /\
  Forall (fun r : row => List.length r = List.length (columns df)) (rows df).

Fixpoint index_of (col : string) (cols : list string) : option nat :=
  match cols with
  | [] => None
  | c :: cols' =>
      if String.eqb c col then Some 0
      else option_map S (index_of col cols')
  end.

(** The cell of row [r] under the label [col]. *)
Definition cell_at (df : DataFrame) (col : string) (r : row) : cell :=
  match index_of col (columns df) with
  | Some i => nth i r NA
  | None => NA
  end.

(** [df[col]] for a label taken from [df.columns]. *)
Definition column (df : DataFrame) (col : string) : list cell :=
  map (cell_at df col) (rows df).

(** [df[col]] for an arbitrary label. *)
Definition getitem (df : DataFrame) (col : string) : result (list cell) :=
  match index_of col (columns df) with
  | Some _ => Ok (column df col)
  | None => Raise (KeyError col)
  end.

(** [df[mask]] where the mask is computed row by row. *)
Definition select_rows (df : DataFrame) (mask : row -> bool) : DataFrame :=
  mkDataFrame (columns df) (filter mask (rows df)).

(** [df.shape[0]] *)
Definition shape0 (df : DataFrame) : nat := List.length (rows df).

(** [series.dropna()] *)
Definition dropna (l : list cell) : list cell :=
  filter (fun a => negb (isna a)) l.

(** [series.isna().sum()] *)
Definition isna_sum (l : list cell) : nat := List.length (filter isna l).

Definition seen (a : cell) (l : list cell) : bool := existsb (cell_eqb a) l.

Fixpoint unique_from (acc : list cell) (l : list cell) : list cell :=
  match l with
  | [] => []
  | a :: l' =>
      if seen a acc then unique_from acc l'
      else a :: unique_from (a :: acc) l'
  end.

(** [series.unique()]: the distinct values in order of first appearance; a
    missing value is a value like another. *)
Definition unique (l : list cell) : list cell := unique_from [] l.

(** ** The results dictionary *)

Definition dict := list (string * list string).

Definition keys (d : dict) : list string := map fst d.

Fixpoint dict_get (k : string) (d : dict) : option (list string) :=
  match d with
  | [] => None
  | (k', v) :: d' => if String.eqb k' k then Some v else dict_get k d'
  end.

(** [d[k] = v]: a present key keeps its place, a new key goes last. *)
Fixpoint dict_setitem (k : string) (v : list string) (d : dict) : dict :=
  match d with
  | [] => [(k, v)]
  | (k', v') :: d' =>
      if String.eqb k' k then (k', v) :: d'
      else (k', v') :: dict_setitem k v d'
  end.

(** [d[k].append(x)] *)
Fixpoint dict_append (k : string) (x : string) (d : dict) : result dict :=
  match d with
  | [] => Raise (KeyError k)
  | (k', v) :: d' =>
      if String.eqb k' k then Ok ((k', v ++ [x]) :: d')
      else d'' <- dict_append k x d' ;; Ok ((k', v) :: d'')
  end.

(** All the lists of a dictionary have the length [n]. *)
Definition aligned (n : nat) (d : dict) : Prop :=
  Forall (fun kv : string * list string => List.length (snd kv) = n) d.

Definition same_lengths (d : dict) : bool :=
  match d with
  | [] => true
  | (_, v) :: d' =>
      forallb (fun kv : string * list string =>
                 Nat.eqb (List.length (snd kv)) (List.length v)) d'
  end.

(** [DataFrame(results)]: every key becomes a column of the summary table;
    lists of different lengths are refused. *)
Definition DataFrame_of_dict (d : dict) : result dict :=
  if same_lengths d then Ok d
  else Raise (ValueError "All arrays must be of the same length").

(** ** Statistics engine *)

Definition VAR_NAME : string := "Variable Name".
Definition ALL : string := "All".

(** The key [f"{group} {group_val}"] of a group column. *)
Definition group_key (group : string) (group_val : cell) : string :=
  fstr [group; " "; str_cell group_val].

(** [_initialize_results_dict].  Without a group the list of group values is
    [None] in the source and is never read; it is the empty list here. *)
Definition _initialize_results_dict (df : DataFrame) (group : option string)
  : result (dict * list cell) :=
  let results := [(VAR_NAME, []); (ALL, [])] in
  match group with
  | None => Ok (results, [])
  | Some g =>
      gcol <- getitem df g ;;
      let group_values := unique gcol in
      Ok (fold_left (fun res group_val => dict_setitem (group_key g group_val) [] res)
                    group_values results,
          group_values)
  end.

(** The columns on which the statistics are computed. *)
Definition analysis_cols (df : DataFrame) (group : option string) : list string :=
  match group with
  | Some g => filter (fun col => negb (String.eqb col g)) (columns df)
  | None => columns df
  end.

(** [df[col].dropna().unique()] *)
Definition categories (df : DataFrame) (col : string) : list cell :=
  unique (dropna (column df col)).

(** [df.shape[0] - df[col].isna().sum()] *)
Definition total (df : DataFrame) (col : string) : nat :=
  shape0 df - isna_sum (column df col).

(** [df[df[col] == category].shape[0]] *)
Definition category_total (df : DataFrame) (col : string) (category : cell) : nat :=
  shape0 (select_rows df (fun r => eq_cell (cell_at df col r) category)).

(** [df.loc[df[group] == group_val, col].dropna().shape[0]] *)
Definition group_total (df : DataFrame) (group : string) (group_val : cell)
  (col : string) : nat :=
  List.length (dropna (column (select_rows df (fun r => eq_cell (cell_at df group r) group_val)) col)).

(** [df[(df[group] == group_val) & (df[col] == category)].shape[0]] *)
Definition sub_category_total (df : DataFrame) (group : string) (group_val : cell)
  (col : string) (category : cell) : nat :=
  shape0 (select_rows df (fun r => eq_cell (cell_at df group r) group_val
                                   && eq_cell (cell_at df col r) category)).

(** [f"{count} ({count/total:.2%})"] *)
Definition count_and_percent (count : nat) (ratio : float) : string :=
  fstr [str_nat count; " ("; format_2pct ratio; ")"].

(** The body of the loop over the group values (lines 312-323); the entry of
    [group_totals] written at line 315 is read back at line 322 only. *)
Definition categorical_group_step (df : DataFrame) (group col : string)
  (category : cell) (group_val : cell) (results : dict) : result dict :=
  let group_totals_val := group_total df group group_val col in
  let sub_cat_total := sub_category_total df group group_val col category in
  ratio <- py_truediv sub_cat_total group_totals_val ;;
  dict_append (group_key group group_val)
              (count_and_percent sub_cat_total ratio) results.

(** The body of the loop over the categories of a column (lines 301-323). *)
Definition categorical_category_step (df : DataFrame) (group : option string)
  (group_values : list cell) (col : string) (category : cell) (results : dict)
  : result dict :=
  let cat_total := category_total df col category in
  results <- dict_append VAR_NAME (fstr [col; " : "; str_cell category]) results ;;
  results <- dict_append ALL
               (count_and_percent cat_total (np_truediv cat_total (total df col)))
               results ;;
  match group with
  | None => Ok results
  | Some g => for_each group_values (categorical_group_step df g col category) results
  end.

(** The loops of [get_categorical_var_analysis], up to the conversion. *)
Definition categorical_results (df : DataFrame) (group : option string)
  : result dict :=
  '(results, group_values) <- _initialize_results_dict df group ;;
  for_each (analysis_cols df group)
    (fun col results =>
       for_each (categories df col)
         (categorical_category_step df group group_values col) results)
    results.

Definition get_categorical_var_analysis (df : DataFrame) (group : option string)
  : result dict :=
  results <- categorical_results df group ;;
  DataFrame_of_dict results.

(** *** Numerical statistics *)

Definition fnan : float := S754_nan.
Definition fzero : float := S754_zero false.

(** The values a reduction works on: pandas skips the missing ones. *)
Definition notna (l : list float) : list float :=
  filter (fun x => negb (is_nan x)) l.

(** The sum of fewer than 8 values: [res = 0.; res += a[i]]. *)
Definition fsum (l : list float) : float := fold_left fadd l fzero.

(** The 8 partial sums of numpy's unrolled loop. *)
Definition acc8 : Type :=
  (float * float * float * float * float * float * float * float)%type.

(** [k] more rounds of [r[j] += a[i + j]], 8 values a round. *)
Fixpoint add_chunks (k : nat) (r : acc8) (rest : list float) : acc8 * list float :=
  match k, rest with
  | S k', b0 :: b1 :: b2 :: b3 :: b4 :: b5 :: b6 :: b7 :: rest' =>
      let '(r0, r1, r2, r3, r4, r5, r6, r7) := r in
      add_chunks k'
        (fadd r0 b0, fadd r1 b1, fadd r2 b2, fadd r3 b3,
         fadd r4 b4, fadd r5 b5, fadd r6 b6, fadd r7 b7)
        rest'
  | _, _ => (r, rest)
  end.

(** The sum of 8 to 128 values: 8 interleaved partial sums, added two by two,
    then the values that do not fill a round of 8, added one by one. *)
Definition block_sum (l : list float) : float :=
  match l with
  | a0 :: a1 :: a2 :: a3 :: a4 :: a5 :: a6 :: a7 :: rest =>
      let '(r, rest') :=
        add_chunks (List.length rest / 8) (a0, a1, a2, a3, a4, a5, a6, a7) rest in
      let '(r0, r1, r2, r3, r4, r5, r6, r7) := r in
      fold_left fadd rest'
        (fadd (fadd (fadd r0 r1) (fadd r2 r3)) (fadd (fadd r4 r5) (fadd r6 r7)))
  | _ => fsum l
  end.

(** numpy's pairwise summation: an array of more than 128 values is cut in
    two, the first part holding half of the values rounded down to a multiple
    of 8.  The recursion is on [fuel]; the length of the list is enough. *)
Fixpoint pairwise_sum (fuel : nat) (l : list float) : float :=
  let n := List.length l in
  if Nat.ltb n 8 then fsum l
  else if Nat.leb n 128 then block_sum l
  else
    match fuel with
    | O => block_sum l
    | S fuel' =>
        let n2 := n / 2 - (n / 2) mod 8 in
        fadd (pairwise_sum fuel' (firstn n2 l)) (pairwise_sum fuel' (skipn n2 l))
    end.

(** [ndarray.sum()] of a float array: the pairwise sum, added to the initial
    value 0. *)
Definition np_sum (l : list float) : float :=
  fadd fzero (pairwise_sum (List.length l) l).

(** The array a reduction sums: pandas writes 0 in the missing cells. *)
Definition fill_zero (l : list float) : list float :=
  map (fun x => if is_nan x then fzero else x) l.

(** The number of values that are not missing. *)
Definition count_notna (l : list float) : nat := List.length (notna l).

Definition fmin (a b : float) : float := if flt b a then b else a.
Definition fmax (a b : float) : float := if flt a b then b else a.

(** [series.mean()], as pandas computes it without the optional bottleneck
    accelerator: the sum of the array, missing cells counting for 0, divided
    by the number of values that are not missing. *)
Definition series_mean (l : list float) : float :=
  match count_notna l with
  | O => fnan
  | S _ => fdiv (np_sum (fill_zero l)) (float_of_nat (count_notna l))
  end.

(** [series.std()]: the sample standard deviation (one degree of freedom
    removed), which is not defined for fewer than two values.  The squared
    deviations from the mean are summed like the values, the missing cells
    counting for 0. *)
Definition series_std (l : list float) : float :=
  let count := count_notna l in
  if Nat.leb count 1 then fnan
  else
    let avg := fdiv (np_sum (fill_zero l)) (float_of_nat count) in
    let sqr := map (fun x => if is_nan x then fzero
                             else let d := fsub avg x in fmul d d) l in
    fsqrt (fdiv (np_sum sqr) (float_of_nat (count - 1))).

(** [series.min()] and [series.max()] *)
Definition series_min (l : list float) : float :=
  match notna l with
  | [] => fnan
  | x :: v => fold_left fmin v x
  end.

Definition series_max (l : list float) : float :=
  match notna l with
  | [] => fnan
  | x :: v => fold_left fmax v x
  end.

Fixpoint map_result {A B : Type} (f : A -> result B) (l : list A) : result (list B) :=
  match l with
  | [] => Ok []
  | a :: l' => b <- f a ;; bs <- map_result f l' ;; Ok (b :: bs)
  end.

Section Numerical.

(** [float(s)] on a text, Python's parser of float literals. *)
Variable float_of_text : string -> result float.

Definition cell_to_float (a : cell) : result float :=
  match a with
  | NA => Ok fnan
  | Num z => py_float_of_int z
  | Str s => float_of_text s
  end.

(** [series.astype("float")] *)
Definition astype_float (l : list cell) : result (list float) :=
  map_result cell_to_float l.

Definition get_numerical_column_stats (df : DataFrame) (col : string)
  : result (float * float * float * float) :=
  numerical_data <- astype_float (column df col) ;;
  let mean := series_mean numerical_data in
  let std := series_std numerical_data in
  let min_ := series_min numerical_data in
  let max_ := series_max numerical_data in
  Ok (mean, std, min_, max_).

(** [f"{mean:.2f} ({var:.2f}) [{min:.2f}, {max:.2f}]"] *)
Definition format_stats (s : float * float * float * float) : string :=
  let '(mean, var, min_, max_) := s in
  fstr [format_2f mean; " ("; format_2f var; ") [";
        format_2f min_; ", "; format_2f max_; "]"].

(** [df[df[group] == group_val]] *)
Definition df_group (df : DataFrame) (group : string) (group_val : cell)
  : DataFrame :=
  select_rows df (fun r => eq_cell (cell_at df group r) group_val).

(** The body of the loop over the group values (lines 377-383). *)
Definition numerical_group_step (df : DataFrame) (group col : string)
  (group_val : cell) (results : dict) : result dict :=
  s <- get_numerical_column_stats (df_group df group group_val) col ;;
  dict_append (group_key group group_val) (format_stats s) results.

(** The body of the loop over the columns (lines 368-383). *)
Definition numerical_column_step (df : DataFrame) (group : option string)
  (group_values : list cell) (col : string) (results : dict) : result dict :=
  results <- dict_append VAR_NAME col results ;;
  s <- get_numerical_column_stats df col ;;
  results <- dict_append ALL (format_stats s) results ;;
  match group with
  | None => Ok results
  | Some g => for_each group_values (numerical_group_step df g col) results
  end.

(** The loops of [get_numerical_var_analysis], up to the conversion. *)
Definition numerical_results (df : DataFrame) (group : option string)
  : result dict :=
  '(results, group_values) <- _initialize_results_dict df group ;;
  for_each (analysis_cols df group)
    (numerical_column_step df group group_values) results.

Definition get_numerical_var_analysis (df : DataFrame) (group : option string)
  : result dict :=
  results <- numerical_results df group ;;
  DataFrame_of_dict results.

End Numerical.

(** A parser that accepts no text: enough for tables whose numerical columns
    hold numbers and missing values only. *)
Definition no_text (s : string) : result float :=
  Raise (ValueError (fstr ["could not convert string to float: '"; s; "'"])).

(** ** Store gateway *)

(** The double quote. *)
Definition dquote : string := String (ascii_of_nat 34) EmptyString.
Definition dquote_char : ascii := ascii_of_nat 34.
Definition squote_char : ascii := ascii_of_nat 39.

(** The text carried by a backend error ([e.pgerror], possibly [None]). *)
Definition pgerror := option string.

(** What is asked of the backend through the connection and its cursors. *)
Inductive request : Type :=
| Connect (database user host password port : string)
| Cursor
| Execute (query : string)
| Commit
| CopyFrom (table sep null : string) (data : DataFrame)
| FetchAll.

(** A request with its outcome: [None] when it succeeded, the error text of
    the [psycopg2.Error] it raised otherwise. *)
Definition entry : Type := request * option pgerror.

(** The backend: whether a request fails, given what happened before, and
    what a cursor holds after a query. *)
Record backend : Type := mkBackend {
  fails : list entry -> request -> option pgerror;
  description : list entry -> list string;
  fetched : list entry -> list row
}.

(** The world outside the program: the session with the backend and the
    files of the working directory. *)
Record world : Type := mkWorld {
  log : list entry;
  files : list string
}.

Definition io (A : Type) : Type := world -> result A * world.

Definition ret {A : Type} (a : A) : io A := fun w => (Ok a, w).
Definition raise {A : Type} (e : exn) : io A := fun w => (Raise e, w).
Definition lift {A : Type} (c : result A) : io A := fun w => (c, w).

Definition io_bind {A B : Type} (c : io A) (k : A -> io B) : io B :=
  fun w =>
    match c w with
    | (Ok a, w') => k a w'
    | (Raise e, w') => (Raise e, w')
    end.

Notation "x <~ c ;; k" := (io_bind c (fun x => k))
  (at level 61, c at next level, right associativity).
Notation "' p <~ c ;; k" := (io_bind c (fun x => let 'p := x in k))
  (at level 61, p pattern, c at next level, right associativity).
Notation "c ;;; k" := (io_bind c (fun _ => k))
  (at level 61, right associativity).

(** [try: body except psycopg2.Error as e: handler(e)] *)
Definition try_except_psycopg2 {A : Type} (body : io A) (handler : pgerror -> io A)
  : io A :=
  fun w =>
    match body w with
    | (Raise (Psycopg2Error e), w') => handler e w'
    | other => other
    end.

(** A request is sent; the backend answers or raises. *)
Definition send (B : backend) (r : request) : io unit :=
  fun w =>
    match fails B (log w) r with
    | Some e => (Raise (Psycopg2Error e), mkWorld (log w ++ [(r, Some e)]) (files w))
    | None => (Ok tt, mkWorld (log w ++ [(r, None)]) (files w))
    end.

(** [curs.description] and [curs.fetchall()] *)
Definition get_description (B : backend) : io (list string) :=
  fun w => (Ok (description B (log w)), w).

Definition fetchall (B : backend) : io (list row) :=
  send B FetchAll ;;; (fun w => (Ok (fetched B (log w)), w)).

(** [df.to_csv(path, ...)] leaves a file; [os.remove(path)] deletes it. *)
Definition to_csv (path : string) : io unit :=
  fun w =>
    (Ok tt, mkWorld (log w)
                    (if existsb (String.eqb path) (files w) then files w
                     else path :: files w)).

Definition os_remove (path : string) : io unit :=
  fun w =>
    if existsb (String.eqb path) (files w)
    then (Ok tt, mkWorld (log w)
                         (filter (fun f => negb (String.eqb path f)) (files w)))
    else (Raise (FileNotFoundError path), w).

(** The object: its connection is the session of the world. *)
Record DataManager : Type := mkDataManager {
  schema : string;
  database : string
}.

Definition TEMP : string := "temp".

(** [_reformat_columns] *)
Definition _reformat_columns (cols : list string) : string :=
  let cols := map (fun c => String.append dquote (String.append c dquote)) cols in
  join "," cols.

(** [types[c]] for a key of the type map. *)
Fixpoint types_get (types : list (string * string)) (c : string) : string :=
  match types with
  | [] => ""
  | (k, t) :: types' => if String.eqb k c then t else types_get types' c
  end.

(** [_reformat_columns_and_types] *)
Definition _reformat_columns_and_types (types : list (string * string)) : string :=
  let cols := map fst types in
  let query_parts := map (fun c => fstr [dquote; c; dquote; " "; types_get types c]) cols in
  join "," query_parts.

(** The statement built by [_create_table] (lines 62-72). *)
Definition create_table_query (dm : DataManager) (table_name : string)
  (types : list (string * string)) (primary_key : option (list string)) : string :=
  let query := String.append
                 (fstr ["CREATE TABLE "; schema dm; "."; dquote; table_name; dquote; " ("])
                 (_reformat_columns_and_types types) in
  match primary_key with
  | Some pk =>
      let keys := _reformat_columns pk in
      String.append query (fstr [", PRIMARY KEY ("; keys; ") );"])
  | None => String.append query ");"
  end.

Definition _create_table (B : backend) (dm : DataManager) (table_name : string)
  (types : list (string * string)) (primary_key : option (list string)) : io unit :=
  let query := create_table_query dm table_name types primary_key in
  send B Cursor ;;;
  try_except_psycopg2
    (send B (Execute query) ;;; send B Commit)
    (fun e => raise (Exception e)).

Definition has_label (df : DataFrame) (c : string) : bool :=
  existsb (String.eqb c) (columns df).

(** The labels of a list, each once, in order of first appearance. *)
Fixpoint first_labels (acc : list string) (l : list string) : list string :=
  match l with
  | [] => []
  | c :: l' =>
      if existsb (String.eqb c) acc then first_labels acc l'
      else c :: first_labels (c :: acc) l'
  end.

(** [df[types.keys()]]: the columns of the type map, in its order.  When
    labels are missing from the table, pandas raises one [KeyError] whose
    message names them all; the exception of the model carries the labels
    rather than the text of the message. *)
Definition select_columns (df : DataFrame) (cols : list string) : result DataFrame :=
  match filter (fun c => negb (has_label df c)) cols with
  | [] =>
      idx <- map_result (fun c => match index_of c (columns df) with
                                  | Some i => Ok i
                                  | None => Raise (KeyError c)
                                  end) cols ;;
      Ok (mkDataFrame cols (map (fun r => map (fun i => nth i r NA) idx) (rows df)))
  | missing => Raise (KeyErrorNotInIndex (first_labels [] missing))
  end.

(** [create_and_fill_table].  The stream handed to the bulk copy is the
    temporary file after its header line, that is the rows of the reordered
    table; its characters are not modelled. *)
Definition create_and_fill_table (B : backend) (dm : DataManager) (df : DataFrame)
  (table_name : string) (types : list (string * string))
  (primary_key : option (list string)) : io unit :=
  _create_table B dm table_name types primary_key ;;;
  df <~ lift (select_columns df (map fst types)) ;;
  to_csv TEMP ;;;
  send B Cursor ;;;
  try_except_psycopg2
    (send B (CopyFrom (fstr [schema dm; "."; dquote; table_name; dquote]) "!" " " df) ;;;
     send B Commit ;;;
     os_remove TEMP)
    (fun e => os_remove TEMP ;;; raise (Exception e)).

(** [get_column_names] *)
Definition column_names_query (table_name : string) : string :=
  let table_name := replace_char squote_char "''" table_name in
  fstr ["SELECT COLUMN_NAME FROM INFORMATION_SCHEMA.COLUMNS WHERE TABLE_NAME= '";
        table_name; "'"].

Definition get_column_names (B : backend) (dm : DataManager) (table_name : string)
  : io (list cell) :=
  send B Cursor ;;;
  try_except_psycopg2
    (send B (Execute (column_names_query table_name)) ;;;
     data <~ fetchall B ;;
     ret (map (fun c : row => nth 0 c NA) data))
    (fun e => raise (Exception e)).

(** [get_table] *)
Definition get_table_query (dm : DataManager) (table_name : string)
  (cols : option (list string)) : string :=
  let query := match cols with
               | None => "SELECT *"
               | Some cols => fstr ["SELECT "; _reformat_columns cols; " "]
               end in
  fstr [query; " FROM "; schema dm; "."; dquote; table_name; dquote].

Definition get_table (B : backend) (dm : DataManager) (table_name : string)
  (cols : option (list string)) : io DataFrame :=
  let query := get_table_query dm table_name cols in
  send B Cursor ;;;
  '(cols, data) <~ try_except_psycopg2
    (send B (Execute query) ;;;
     cols <~ get_description B ;;
     data <~ fetchall B ;;
     ret (cols, data))
    (fun e => raise (Exception e)) ;;
  ret (mkDataFrame cols data).

(** [_connect] and [__init__] *)
Definition _connect (B : backend) (user password database host port : string)
  : io unit :=
  try_except_psycopg2
    (send B (Connect database user host password port))
    (fun e => raise (Exception e)).

Definition init (B : backend) (user password database host port schema_ : string)
  : io DataManager :=
  _connect B user password database host port ;;;
  ret (mkDataManager schema_ database).

(** *** What the store keeps

    The statements of a transaction become durable when it is committed; a
    failed statement breaks the transaction, whose statements are lost. *)
Record store : Type := mkStore {
  durable : list request;
  pending : list request;
  broken : bool
}.

Definition store_step (s : store) (e : entry) : store :=
  let '(r, outcome) := e in
  match r, outcome with
  | Execute _, None | CopyFrom _ _ _ _, None =>
      mkStore (durable s) (pending s ++ [r]) (broken s)
  | Execute _, Some _ | CopyFrom _ _ _ _, Some _ =>
      mkStore (durable s) [] true
  | Commit, None =>
      if broken s then mkStore (durable s) [] false
      else mkStore (durable s ++ pending s) [] false
  | _, _ => s
  end.

Definition replay (l : list entry) : store :=
  fold_left store_step l (mkStore [] [] false).

(** The statements executed, in order. *)
Definition executed (l : list entry) : list string :=
  flat_map (fun e : entry => match fst e with Execute q => [q] | _ => [] end) l.

(** ** Notions used to state the properties *)

Definition cell_eq_dec (a b : cell) : {a = b} + {a <> b}.
Proof.
  decide equality; [apply string_dec | apply Z.eq_dec].
Defined.

(** [u] lists the distinct values of [l] in order of first appearance: the
    head of [l] comes first, and the rest is listed likewise once the copies
    of the head are removed. *)
Inductive first_seen : list cell -> list cell -> Prop :=
| first_seen_nil : first_seen [] []
| first_seen_cons (a : cell) (l u : list cell) :
    first_seen (filter (fun b => negb (cell_eqb a b)) l) u ->
    first_seen (a :: l) (a :: u).

(** The number of rows of the table whose cell under [col] is [v]. *)
Definition rows_with (df : DataFrame) (col : string) (v : cell) : nat :=
  count_occ cell_eq_dec (column df col) v.

(** The (column, category) pairs of a table, column by column. *)
Definition category_pairs_of (df : DataFrame) (cols : list string)
  : list (string * cell) :=
  flat_map (fun col => map (pair col) (categories df col)) cols.

Definition category_pairs (df : DataFrame) : list (string * cell) :=
  category_pairs_of df (columns df).

(** The label and the "All" entry of the row of a pair, written from the
    counts of the table. *)
Definition pair_label (p : string * cell) : string :=
  fstr [fst p; " : "; str_cell (snd p)].

Definition pair_all_entry (df : DataFrame) (p : string * cell) : string :=
  let category_count := rows_with df (fst p) (snd p) in
  let non_missing := List.length (rows df) - rows_with df (fst p) NA in
  fstr [str_nat category_count; " (";
        format_2pct (fdiv (float_of_nat category_count) (float_of_nat non_missing));
        ")"].

(** The value of a computation that did not raise. *)
Definition value (c : result string) : string :=
  match c with Ok x => x | Raise _ => "" end.

(** The results dictionary with the columns [a] and [b] under "Variable Name"
    and "All" and the column [h gv] under the key of each group value. *)
Definition results_shape (key : cell -> string) (gvs : list cell)
  (a b : list string) (h : cell -> list string) : dict :=
  (VAR_NAME, a) :: (ALL, b) :: map (fun gv => (key gv, h gv)) gvs.

(** The keys of the results dictionary are pairwise distinct. *)
Definition distinct_keys (df : DataFrame) (group : option string) : Prop :=
  match group with
  | None => True
  | Some g => NoDup (VAR_NAME :: ALL :: map (group_key g) (unique (column df g)))
  end.

(** One row of a summary: its label goes under "Variable Name", its overall
    entry under "All" and, for every group value, an entry under the key of
    the group.  Both analyses fill the results dictionary row by row in this
    way. *)
Definition row_step (key : cell -> string) (gvs : list cell) (label : string)
  (all_entry : result string) (group_entry : cell -> result string)
  (results : dict) : result dict :=
  results <- dict_append VAR_NAME label results ;;
  y <- all_entry ;;
  results <- dict_append ALL y results ;;
  for_each gvs (fun gv res => x <- group_entry gv ;; dict_append (key gv) x res)
           results.

(** Whether the entries of a row can be computed. *)
Definition row_check {I : Type} (gvs : list cell) (all_entry : I -> result string)
  (group_entry : I -> cell -> result string) (it : I) : result unit :=
  _ <- all_entry it ;; _ <- map_result (group_entry it) gvs ;; Ok tt.

(** The entries of a row of the categorical summary. *)
Definition cat_all_entry (df : DataFrame) (p : string * cell) : result string :=
  let cat_total := category_total df (fst p) (snd p) in
  Ok (count_and_percent cat_total (np_truediv cat_total (total df (fst p)))).

Definition cat_group_entry (df : DataFrame) (group : string) (p : string * cell)
  (group_val : cell) : result string :=
  let sub_cat_total := sub_category_total df group group_val (fst p) (snd p) in
  ratio <- py_truediv sub_cat_total (group_total df group group_val (fst p)) ;;
  Ok (count_and_percent sub_cat_total ratio).

(** The entries of a row of the numerical summary. *)
Definition num_all_entry (float_of_text : string -> result float) (df : DataFrame)
  (col : string) : result string :=
  s <- get_numerical_column_stats float_of_text df col ;; Ok (format_stats s).

Definition num_group_entry (float_of_text : string -> result float)
  (df : DataFrame) (group : string) (col : string) (group_val : cell)
  : result string :=
  num_all_entry float_of_text (df_group df group group_val) col.

(** The keys of the results dictionary of a call. *)
Definition results_keys (df : DataFrame) (group : option string) : list string :=
  VAR_NAME :: ALL ::
  match group with
  | None => []
  | Some g => map (group_key g) (unique (column df g))
  end.

(** A list of names, each between two double quotes, separated by commas;
    the characters of a name are copied as they are. *)
Fixpoint quoted_list (cols : list string) : string :=
  match cols with
  | [] => ""
  | c :: rest =>
      String.append dquote
        (String.append c
           (String.append dquote
              match rest with
              | [] => ""
              | _ :: _ => String.append "," (quoted_list rest)
              end))
  end.

(** The definition of a column in a CREATE TABLE statement. *)
Definition column_definition (ct : string * string) : string :=
  fstr [dquote; fst ct; dquote; " "; snd ct].

(** The CREATE TABLE statement of a type map and an optional primary key. *)
Definition create_table_statement (schema_ table_name : string)
  (types : list (string * string)) (primary_key : option (list string)) : string :=
  fstr ["CREATE TABLE "; schema_; "."; dquote; table_name; dquote; " (";
        join "," (map column_definition types);
        match primary_key with
        | Some pk => fstr [", PRIMARY KEY ("; quoted_list pk; ") );"]
        | None => ");"
        end].

(** The entry of the row of a pair under the key of a group value: the
    count of the category within the group and its share of the non-missing
    cells of the column within the group. *)
Definition pair_group_entry (df : DataFrame) (g : string) (group_val : cell)
  (p : string * cell) : string :=
  let count := sub_category_total df g group_val (fst p) (snd p) in
  let non_missing := group_total df g group_val (fst p) in
  fstr [str_nat count; " (";
        format_2pct (fdiv (float_of_nat count) (float_of_nat non_missing));
        ")"].

(** A text with every single quote written twice and every other character
    kept, as a string literal of SQL holds it. *)
Fixpoint doubled_quotes (s : string) : string :=
  match s with
  | EmptyString => EmptyString
  | String a s' =>
      if Ascii.eqb a squote_char
      then String squote_char (String squote_char (doubled_quotes s'))
      else String a (doubled_quotes s')
  end.

(** The part of an entry of the numerical summary that starts at its
    bracket: the minimum and the maximum. *)
Fixpoint min_max_part (s : string) : string :=
  match s with
  | EmptyString => EmptyString
  | String a s' => if Ascii.eqb a "["%char then s else min_max_part s'
  end.

(** A cell that holds an integer or is missing. *)
Definition integer_or_missing (a : cell) : Prop :=
  match a with
  | Str _ => False
  | _ => True
  end.

(** The analysed columns of a table hold integers and missing values only. *)
Definition integer_columns (df : DataFrame) (group : option string) : Prop :=
  forall col, In col (analysis_cols df group) ->
    Forall integer_or_missing (column df col).

(** A float that is finite and not zero, or infinite. *)
Definition finite_or_infinite (x : float) : Prop :=
  match x with
  | S754_finite _ _ _ | S754_infinity _ => True
  | _ => False
  end.

(** The floats on which [<] is a strict total order: every float but nan and
    the negative zero, which no integer converts to. *)
Definition comparable (x : float) : Prop :=
  match x with
  | S754_nan | S754_zero true => False
  | _ => True
  end.

(** ** Tables used as examples *)

Definition sex_table : DataFrame :=
  mkDataFrame ["Sex"] [[Str "M"]; [Str "F"]; [Str "F"]; [Str "M"]; [Str "M"]].

Definition survey_table : DataFrame :=
  mkDataFrame ["Sex"; "Smoker"]
    [[Str "M"; Str "yes"]; [Str "F"; Str "no"]; [Str "F"; Str "yes"];
     [Str "M"; NA]; [Str "M"; Str "yes"]].

(** A table whose grouping column misses a value. *)
Definition missing_group_table : DataFrame :=
  mkDataFrame ["Sex"; "Age"] [[Str "M"; Num 10]; [NA; Num 20]].

Definition age_sex_table : DataFrame :=
  mkDataFrame ["Age"; "Sex"]
    [[Num 10; Str "M"]; [Num 20; Str "F"]; [Num 30; Str "M"]].

(** The same table with one more row, whose age is missing. *)
Definition age_sex_missing_table : DataFrame :=
  mkDataFrame ["Age"; "Sex"]
    [[Num 10; Str "M"]; [NA; Str "M"]; [Num 20; Str "F"]; [Num 30; Str "M"]].

(** A table whose grouping column gives the key "Variable Name". *)
Definition variable_name_table : DataFrame :=
  mkDataFrame ["x"; "Variable"] [[Num 10; Str "Name"]].

(** A table and the same table with its two rows exchanged. *)
Definition two_rows_table : DataFrame :=
  mkDataFrame ["Age"; "Sex"] [[Num 10; Str "M"]; [Num 20; Str "F"]].

Definition two_rows_swapped : DataFrame :=
  mkDataFrame ["Age"; "Sex"] [[Num 20; Str "F"]; [Num 10; Str "M"]].

(** The table of ages with its rows in another order. *)
Definition age_sex_rotated : DataFrame :=
  mkDataFrame ["Age"; "Sex"]
    [[Num 20; Str "F"]; [Num 30; Str "M"]; [Num 10; Str "M"]].

(** Three integers near 2^53, where the floats are two apart, in two
    orders. *)
Definition large_values_table : DataFrame :=
  mkDataFrame ["Ticks"]
    [[Num 9007199254740994]; [Num 9007199254740994]; [Num 9007199254740992]].

Definition large_values_permuted : DataFrame :=
  mkDataFrame ["Ticks"]
    [[Num 9007199254740992]; [Num 9007199254740994]; [Num 9007199254740994]].

(** 2^53 followed by fourteen times 1, and the same column with a missing
    cell in second place. *)
Definition without_missing_table : DataFrame :=
  mkDataFrame ["Ticks"] ([Num 9007199254740992] :: repeat [Num 1] 14).

Definition with_missing_table : DataFrame :=
  mkDataFrame ["Ticks"] ([Num 9007199254740992] :: [NA] :: repeat [Num 1] 14).

(** The operations of the gateway and the class of error the specification
    assigns to each. *)
Inductive operation : Type :=
| OpConnect
| OpCreateTable
| OpBulkLoad
| OpGetTable
| OpGetColumnNames.

Definition taxonomy (op : operation) : string :=
  match op with
  | OpConnect => "ConnectionError"
  | OpCreateTable => "SchemaError"
  | OpBulkLoad => "LoadError"
  | OpGetTable | OpGetColumnNames => "QueryError"
  end.

(** A call of a method of the gateway, with its arguments. *)
Inductive gateway_call : Type :=
| CallConnect (user password database_ host port : string)
| CallCreateTable (dm : DataManager) (table_name : string)
    (types : list (string * string)) (primary_key : option (list string))
| CallCreateAndFillTable (dm : DataManager) (df : DataFrame) (table_name : string)
    (types : list (string * string)) (primary_key : option (list string))
| CallGetColumnNames (dm : DataManager) (table_name : string)
| CallGetTable (dm : DataManager) (table_name : string) (cols : option (list string)).

(** The exception a call ends with, if any. *)
Definition raised {A : Type} (r : result A * world) : option exn * world :=
  match r with
  | (Ok _, w) => (None, w)
  | (Raise e, w) => (Some e, w)
  end.

Definition run (B : backend) (call : gateway_call) (w : world) : option exn * world :=
  match call with
  | CallConnect user password database_ host port =>
      raised (_connect B user password database_ host port w)
  | CallCreateTable dm table_name types primary_key =>
      raised (_create_table B dm table_name types primary_key w)
  | CallCreateAndFillTable dm df table_name types primary_key =>
      raised (create_and_fill_table B dm df table_name types primary_key w)
  | CallGetColumnNames dm table_name =>
      raised (get_column_names B dm table_name w)
  | CallGetTable dm table_name cols =>
      raised (get_table B dm table_name cols w)
  end.

(** What reaches the caller when the request [req] fails with the text [e]:
    the requests sent inside a [try] come back as a plain [Exception] carrying
    the text, the opening of a cursor, sent outside, as the backend's own
    error. *)
Definition reraised (req : request) (e : pgerror) : exn :=
  match req with
  | Cursor => Psycopg2Error e
  | _ => Exception e
  end.

(** A table with a column that holds no value, and a table without rows. *)
Definition blank_column_table : DataFrame :=
  mkDataFrame ["Sex"; "Weight"] [[Str "M"; NA]; [Str "F"; NA]].

Definition empty_table : DataFrame := mkDataFrame ["Age"; "Sex"] [].



(** ** Backends used as examples *)

Definition example_manager : DataManager := mkDataManager "public" "clinic".

Definition fresh_world : world := mkWorld [] [].

(** A backend that accepts every request. *)
Definition accepting_backend : backend :=
  mkBackend (fun _ _ => None) (fun _ => []) (fun _ => []).

(** A backend that refuses every statement. *)
Definition execute_failing_backend : backend :=
  mkBackend (fun _ r => match r with
                        | Execute _ => Some (Some "ERROR: permission denied")
                        | _ => None
                        end)
            (fun _ => []) (fun _ => []).

(** A backend that cannot be reached: the error of the driver holds no text
    of the server. *)
Definition unreachable_backend : backend :=
  mkBackend (fun _ r => match r with
                        | Connect _ _ _ _ _ => Some None
                        | _ => None
                        end)
            (fun _ => []) (fun _ => []).

(** A backend that refuses every bulk copy. *)
Definition copy_failing_backend : backend :=
  mkBackend (fun _ r => match r with
                        | CopyFrom _ _ _ _ => Some (Some "ERROR: invalid input syntax")
                        | _ => None
                        end)
            (fun _ => []) (fun _ => []).

Definition patients_table : DataFrame :=
  mkDataFrame ["Age"; "name"] [[Num 31; Str "Ann"]; [Num 47; Str "Bob"]].

Definition patients_types : list (string * string) :=
  [("name", "text"); ("Age", "numeric")].

(** A backend that answers every query with one column and two rows. *)
Definition serving_backend : backend :=
  mkBackend (fun _ _ => None) (fun _ => ["name"])
            (fun _ => [[Str "Ann"]; [Str "Bob"]]).

(** A backend that opens one cursor and no more. *)
Definition second_cursor_failing_backend : backend :=
  mkBackend (fun history r => match history, r with
                              | _ :: _, Cursor => Some (Some "connection already closed")
                              | _, _ => None
                              end)
            (fun _ => []) (fun _ => []).

(** * Properties *)

(** ** Basic facts *)

Lemma cell_eqb_eq (a b : cell) : cell_eqb a b = true <-> a = b.
Proof.
  destruct a, b; simpl; split; intro H; try discriminate; try reflexivity.
  - apply String.eqb_eq in H. now subst.
  - inversion H. apply String.eqb_refl.
  - apply Z.eqb_eq in H. now subst.
  - inversion H. apply Z.eqb_refl.
Qed.

Lemma cell_eqb_refl (a : cell) : cell_eqb a a = true.
Proof. now apply cell_eqb_eq. Qed.

Lemma cell_eqb_neq (a b : cell) : cell_eqb a b = false <-> a <> b.
Proof.
  rewrite <- cell_eqb_eq. destruct (cell_eqb a b); split; congruence.
Qed.

Lemma eq_cell_true (a b : cell) : eq_cell a b = true <-> a = b /\ a <> NA.
Proof.
  destruct a, b; simpl; rewrite ?String.eqb_eq, ?Z.eqb_eq;
    split; intro H; try discriminate; try (destruct H; congruence).
  - subst. split; congruence.
  - subst. split; congruence.
Qed.

Lemma seen_In (a : cell) (l : list cell) : seen a l = true <-> In a l.
Proof.
  unfold seen. rewrite existsb_exists. split.
  - intros [x [Hx He]]. apply cell_eqb_eq in He. now subst.
  - intro H. exists a. split; [assumption | apply cell_eqb_refl].
Qed.

Lemma seen_false (a : cell) (l : list cell) : seen a l = false <-> ~ In a l.
Proof.
  rewrite <- seen_In. destruct (seen a l); split; congruence.
Qed.

(** *** Sums *)

(** The recursion of [pairwise_sum] ends before its fuel does: any fuel that
    is at least the number of values gives the same sum. *)
Lemma pairwise_sum_fuel (fuel fuel' : nat) (l : list float) :
  List.length l <= fuel -> List.length l <= fuel' ->
  pairwise_sum fuel l = pairwise_sum fuel' l.
Proof.
  revert fuel' l. induction fuel as [| fuel IH]; intros fuel' l H H'.
  - destruct l; [| cbn [List.length] in H; lia]. now destruct fuel'.
  - destruct fuel' as [| fuel'].
    + destruct l; [reflexivity | cbn [List.length] in H'; lia].
    + cbn [pairwise_sum].
      destruct (Nat.ltb (List.length l) 8) eqn:E8; [reflexivity |].
      destruct (Nat.leb (List.length l) 128) eqn:E128; [reflexivity |].
      apply Nat.leb_gt in E128.
      set (n := List.length l) in *.
      assert (Hn2 : 0 < n / 2 - (n / 2) mod 8 < n).
      { pose proof (Nat.div_mod_eq n 2) as D.
        pose proof (Nat.mod_upper_bound n 2 ltac:(lia)) as M.
        pose proof (Nat.mod_upper_bound (n / 2) 8 ltac:(lia)) as M8.
        lia. }
      f_equal; apply IH.
      * rewrite length_firstn. fold n. lia.
      * rewrite length_firstn. fold n. lia.
      * rewrite length_skipn. fold n. lia.
      * rewrite length_skipn. fold n. lia.
Qed.

(** *** [unique] *)

Lemma unique_from_In (l acc : list cell) (x : cell) :
  In x (unique_from acc l) <-> In x l /\ ~ In x acc.
Proof.
  revert acc. induction l as [| a l IH]; intro acc; simpl.
  - tauto.
  - destruct (seen a acc) eqn:E.
    + apply seen_In in E. rewrite IH. split.
      * intros [H1 H2]. split; auto.
      * intros [[H1 | H1] H2]; [subst; contradiction | auto].
    + apply seen_false in E. simpl. rewrite IH. simpl. split.
      * intros [H | [H1 H2]]; [subst; auto | split; auto].
      * intros [[H1 | H1] H2]; [auto |].
        destruct (cell_eq_dec a x) as [-> | Hne]; [auto | right].
        split; [assumption | intros [H | H]; contradiction].
Qed.

Lemma unique_In (l : list cell) (x : cell) : In x (unique l) <-> In x l.
Proof.
  unfold unique. rewrite unique_from_In. simpl. tauto.
Qed.

Lemma unique_from_NoDup (l acc : list cell) : NoDup (unique_from acc l).
Proof.
  revert acc. induction l as [| a l IH]; intro acc; simpl.
  - constructor.
  - destruct (seen a acc); [apply IH |].
    constructor; [| apply IH].
    rewrite unique_from_In. simpl. tauto.
Qed.

Lemma unique_NoDup (l : list cell) : NoDup (unique l).
Proof. apply unique_from_NoDup. Qed.

Lemma unique_Permutation (l l' : list cell) :
  Permutation l l' -> Permutation (unique l) (unique l').
Proof.
  intro H. apply NoDup_Permutation; try apply unique_NoDup.
  intro x. rewrite !unique_In. split; apply Permutation_in;
    [assumption | now apply Permutation_sym].
Qed.

Lemma filter_Permutation {A : Type} (p : A -> bool) (l l' : list A) :
  Permutation l l' -> Permutation (filter p l) (filter p l').
Proof.
  induction 1 as [| x l l' _ IH | x y l | l l' l'' _ IH1 _ IH2]; simpl.
  - constructor.
  - destruct (p x); [now constructor | exact IH].
  - destruct (p x), (p y); try apply Permutation_refl. apply perm_swap.
  - now transitivity (filter p l').
Qed.

Lemma filter_filter_and {A : Type} (p q : A -> bool) (l : list A) :
  filter p (filter q l) = filter (fun x => q x && p x) l.
Proof.
  induction l as [| a l IH]; simpl; [reflexivity |].
  destruct (q a); simpl; [destruct (p a) |]; now rewrite IH.
Qed.

Lemma unique_from_filter (l acc : list cell) :
  unique_from acc l = unique (filter (fun b => negb (seen b acc)) l).
Proof.
  unfold unique. remember (List.length l) as n eqn:Hn.
  revert l acc Hn. induction n as [n IHn] using lt_wf_ind.
  intros l acc Hn. destruct l as [| a l]; simpl; [reflexivity |].
  destruct (seen a acc) eqn:E; simpl.
  - apply (IHn (List.length l)); simpl in Hn; [lia | reflexivity].
  - f_equal.
    rewrite (IHn (List.length l)) with (acc := a :: acc) by (simpl in Hn; lia || reflexivity).
    rewrite (IHn (List.length (filter (fun b => negb (seen b acc)) l)))
      with (acc := [a]) (l := filter (fun b => negb (seen b acc)) l).
    + rewrite filter_filter_and. f_equal. apply filter_ext. intro b. simpl.
      rewrite orb_false_r.
      destruct (seen b acc), (cell_eqb b a) eqn:E2; simpl; try reflexivity.
    + pose proof (filter_length_le (fun b => negb (seen b acc)) l).
      simpl in Hn. lia.
    + reflexivity.
Qed.

Lemma unique_cons (a : cell) (l : list cell) :
  unique (a :: l) = a :: unique (filter (fun b => negb (cell_eqb a b)) l).
Proof.
  unfold unique at 1. simpl. f_equal. rewrite unique_from_filter.
  f_equal. apply filter_ext. intro b. simpl. rewrite orb_false_r.
  f_equal. destruct (cell_eqb b a) eqn:E1, (cell_eqb a b) eqn:E2; try reflexivity.
  - apply cell_eqb_eq in E1. subst. now rewrite cell_eqb_refl in E2.
  - apply cell_eqb_eq in E2. subst. now rewrite cell_eqb_refl in E1.
Qed.

Lemma unique_first_seen (l : list cell) : first_seen l (unique l).
Proof.
  remember (List.length l) as n eqn:Hn.
  revert l Hn. induction n as [n IHn] using lt_wf_ind.
  intros l Hn. destruct l as [| a l].
  - constructor.
  - rewrite unique_cons. constructor.
    apply (IHn (List.length (filter (fun b => negb (cell_eqb a b)) l))); [| reflexivity].
    pose proof (filter_length_le (fun b => negb (cell_eqb a b)) l).
    simpl in Hn. lia.
Qed.

(** *** The results dictionary *)

Lemma keys_app (d d' : dict) : keys (d ++ d') = keys d ++ keys d'.
Proof. apply map_app. Qed.

Lemma dict_append_middle (pre post : dict) (k : string) (v : list string) (x : string) :
  ~ In k (keys pre) ->
  dict_append k x (pre ++ (k, v) :: post) = Ok (pre ++ (k, v ++ [x]) :: post).
Proof.
  induction pre as [| [k' v'] pre IH]; simpl; intro H.
  - now rewrite String.eqb_refl.
  - destruct (String.eqb k' k) eqn:E.
    + apply String.eqb_eq in E. tauto.
    + rewrite IH by tauto. reflexivity.
Qed.

Lemma dict_setitem_new (d : dict) (k : string) (v : list string) :
  ~ In k (keys d) -> dict_setitem k v d = d ++ [(k, v)].
Proof.
  induction d as [| [k' v'] d IH]; simpl; intro H; [reflexivity |].
  destruct (String.eqb k' k) eqn:E.
  - apply String.eqb_eq in E. tauto.
  - rewrite IH by tauto. reflexivity.
Qed.

Lemma initial_keys (key : cell -> string) (gvs : list cell) (pre : dict) :
  NoDup (keys pre ++ map key gvs) ->
  fold_left (fun res gv => dict_setitem (key gv) [] res) gvs pre
  = pre ++ map (fun gv => (key gv, [])) gvs.
Proof.
  revert pre. induction gvs as [| a gvs IH]; intros pre H; simpl.
  - now rewrite app_nil_r.
  - rewrite dict_setitem_new.
    + rewrite IH.
      * now rewrite <- app_assoc.
      * rewrite keys_app, <- app_assoc. exact H.
    + apply NoDup_remove_2 in H. intro Hin. apply H.
      apply in_or_app. now left.
Qed.

Lemma for_each_ext {A S : Type} (f g : A -> S -> result S) (l : list A) (s : S) :
  (forall x s', In x l -> f x s' = g x s') -> for_each l f s = for_each l g s.
Proof.
  revert s. induction l as [| a l IH]; intros s H; simpl; [reflexivity |].
  rewrite H by now left.
  destruct (g a s); simpl; [| reflexivity].
  apply IH. intros. apply H. now right.
Qed.

Lemma for_each_app {A S : Type} (f : A -> S -> result S) (l l' : list A) (s : S) :
  for_each (l ++ l') f s = (s' <- for_each l f s ;; for_each l' f s').
Proof.
  revert s. induction l as [| a l IH]; intro s; simpl; [reflexivity |].
  destruct (f a s); simpl; [apply IH | reflexivity].
Qed.

Lemma for_each_nested {A B S : Type} (inner : A -> list B)
  (body : A -> B -> S -> result S) (l : list A) (s : S) :
  for_each l (fun x s' => for_each (inner x) (body x) s') s
  = for_each (flat_map (fun x => map (pair x) (inner x)) l)
             (fun p s' => body (fst p) (snd p) s') s.
Proof.
  revert s. induction l as [| a l IH]; intro s; simpl; [reflexivity |].
  rewrite for_each_app.
  assert (E : forall s0, for_each (map (pair a) (inner a))
                           (fun p s' => body (fst p) (snd p) s') s0
                         = for_each (inner a) (body a) s0).
  { induction (inner a) as [| b bs IHb]; intro s0; simpl; [reflexivity |].
    destruct (body a b s0); simpl; [apply IHb | reflexivity]. }
  rewrite E. destruct (for_each (inner a) (body a) s); simpl; [apply IH | reflexivity].
Qed.

Lemma map_result_Ok {A B : Type} (f : A -> result B) (l : list A) :
  (forall x, In x l -> exists y, f x = Ok y) -> exists ys, map_result f l = Ok ys.
Proof.
  induction l as [| a l IH]; intro H; simpl.
  - now exists [].
  - destruct (H a (or_introl eq_refl)) as [y Hy]. rewrite Hy. simpl.
    destruct IH as [ys Hys]; [intros; apply H; now right |].
    rewrite Hys. simpl. now exists (y :: ys).
Qed.

Lemma map_result_Ok_inv {A B : Type} (f : A -> result B) (l : list A) (ys : list B) :
  map_result f l = Ok ys -> forall x, In x l -> exists y, f x = Ok y.
Proof.
  revert ys. induction l as [| a l IH]; intros ys H x Hx; simpl in *; [tauto |].
  destruct (f a) as [b |] eqn:E; simpl in H; [| discriminate].
  destruct (map_result f l) as [bs |] eqn:E'; simpl in H; [| discriminate].
  destruct Hx as [<- | Hx]; [now exists b | now apply (IH bs)].
Qed.

Section Rows.

Variable key : cell -> string.
Variable gvs : list cell.
Hypothesis keys_distinct : NoDup (VAR_NAME :: ALL :: map key gvs).

Lemma group_loop_shape (group_entry : cell -> result string) (l : list cell)
  (pre : dict) (h : cell -> list string) :
  NoDup (keys pre ++ map key l) ->
  for_each l (fun gv res => x <- group_entry gv ;; dict_append (key gv) x res)
           (pre ++ map (fun gv => (key gv, h gv)) l)
  = (_ <- map_result group_entry l ;;
     Ok (pre ++ map (fun gv => (key gv, h gv ++ [value (group_entry gv)])) l)).
Proof.
  revert pre. induction l as [| a l IH]; intros pre H; simpl; [reflexivity |].
  destruct (group_entry a) as [x |] eqn:E; simpl; [| reflexivity].
  rewrite dict_append_middle.
  - simpl.
    change (pre ++ (key a, h a ++ [x]) :: map (fun gv => (key gv, h gv)) l)
      with (pre ++ [(key a, h a ++ [x])] ++ map (fun gv => (key gv, h gv)) l).
    rewrite app_assoc, IH.
    + destruct (map_result group_entry l); simpl; [| reflexivity].
      now rewrite <- app_assoc.
    + rewrite keys_app, <- app_assoc. exact H.
  - apply NoDup_remove_2 in H. intro Hin. apply H. apply in_or_app. now left.
Qed.

Lemma row_step_shape (label : string) (all_entry : result string)
  (group_entry : cell -> result string) (a b : list string)
  (h : cell -> list string) :
  row_step key gvs label all_entry group_entry (results_shape key gvs a b h)
  = (y <- all_entry ;; _ <- map_result group_entry gvs ;;
     Ok (results_shape key gvs (a ++ [label]) (b ++ [y])
           (fun gv => h gv ++ [value (group_entry gv)]))).
Proof.
  unfold row_step, results_shape. simpl.
  destruct all_entry as [y |]; simpl; [| reflexivity].
  apply (group_loop_shape group_entry gvs [(VAR_NAME, a ++ [label]); (ALL, b ++ [y])] h).
  exact keys_distinct.
Qed.

Lemma rows_loop_shape {I : Type} (label : I -> string)
  (all_entry : I -> result string) (group_entry : I -> cell -> result string)
  (items : list I) (a b : list string) (h : cell -> list string) :
  for_each items
    (fun it res => row_step key gvs (label it) (all_entry it) (group_entry it) res)
    (results_shape key gvs a b h)
  = (_ <- map_result (row_check gvs all_entry group_entry) items ;;
     Ok (results_shape key gvs
           (a ++ map label items)
           (b ++ map (fun it => value (all_entry it)) items)
           (fun gv => h gv ++ map (fun it => value (group_entry it gv)) items))).
Proof.
  revert a b h. induction items as [| it items IH]; intros a b h; simpl.
  - rewrite !app_nil_r. unfold results_shape. do 3 f_equal.
    apply map_ext. intro gv. now rewrite app_nil_r.
  - rewrite row_step_shape. unfold row_check at 1.
    destruct (all_entry it) as [y |]; simpl; [| reflexivity].
    destruct (map_result (group_entry it) gvs); simpl; [| reflexivity].
    rewrite IH.
    destruct (map_result (row_check gvs all_entry group_entry) items); simpl;
      [| reflexivity].
    unfold results_shape. rewrite <- !app_assoc. simpl. do 3 f_equal.
    apply map_ext. intro gv. now rewrite <- app_assoc.
Qed.

End Rows.

(** *** The two analyses, row by row *)

Lemma categorical_step_row (df : DataFrame) (g : string) (gvs : list cell)
  (p : string * cell) (res : dict) :
  categorical_category_step df (Some g) gvs (fst p) (snd p) res
  = row_step (group_key g) gvs (pair_label p) (cat_all_entry df p)
             (cat_group_entry df g p) res.
Proof.
  unfold categorical_category_step, row_step, cat_all_entry, pair_label.
  destruct (dict_append VAR_NAME _ res) as [res1 |]; simpl; [| reflexivity].
  destruct (dict_append ALL _ res1) as [res2 |]; simpl; [| reflexivity].
  apply for_each_ext. intros gv s' _.
  unfold categorical_group_step, cat_group_entry.
  destruct (py_truediv _ _); reflexivity.
Qed.

Lemma categorical_step_row_no_group (df : DataFrame) (key : cell -> string)
  (p : string * cell) (res : dict) :
  categorical_category_step df None [] (fst p) (snd p) res
  = row_step key [] (pair_label p) (cat_all_entry df p) (fun _ => Ok "") res.
Proof.
  unfold categorical_category_step, row_step, cat_all_entry, pair_label.
  destruct (dict_append VAR_NAME _ res) as [res1 |]; simpl; [| reflexivity].
  destruct (dict_append ALL _ res1) as [res2 |]; reflexivity.
Qed.

Lemma numerical_step_row (fot : string -> result float) (df : DataFrame)
  (g : string) (gvs : list cell) (col : string) (res : dict) :
  numerical_column_step fot df (Some g) gvs col res
  = row_step (group_key g) gvs col (num_all_entry fot df col)
             (num_group_entry fot df g col) res.
Proof.
  unfold numerical_column_step, row_step, num_all_entry.
  destruct (dict_append VAR_NAME col res) as [res1 |]; simpl; [| reflexivity].
  destruct (get_numerical_column_stats fot df col) as [s |]; simpl; [| reflexivity].
  destruct (dict_append ALL _ res1) as [res2 |]; simpl; [| reflexivity].
  apply for_each_ext. intros gv s' _.
  unfold numerical_group_step, num_group_entry, num_all_entry.
  destruct (get_numerical_column_stats fot _ col); reflexivity.
Qed.

Lemma numerical_step_row_no_group (fot : string -> result float) (df : DataFrame)
  (key : cell -> string) (col : string) (res : dict) :
  numerical_column_step fot df None [] col res
  = row_step key [] col (num_all_entry fot df col) (fun _ => Ok "") res.
Proof.
  unfold numerical_column_step, row_step, num_all_entry.
  destruct (dict_append VAR_NAME col res) as [res1 |]; simpl; [| reflexivity].
  destruct (get_numerical_column_stats fot df col) as [s |]; simpl; [| reflexivity].
  destruct (dict_append ALL _ res1) as [res2 |]; reflexivity.
Qed.

Lemma initialize_shape (df : DataFrame) (g : string) :
  distinct_keys df (Some g) ->
  _initialize_results_dict df (Some g)
  = (_ <- getitem df g ;;
     Ok (results_shape (group_key g) (unique (column df g)) [] [] (fun _ => []),
         unique (column df g))).
Proof.
  intro H. unfold _initialize_results_dict, getitem.
  destruct (index_of g (columns df)); simpl; [| reflexivity].
  rewrite (initial_keys (group_key g) (unique (column df g)) [(VAR_NAME, []); (ALL, [])] H).
  reflexivity.
Qed.

(** The categorical loops in closed form. *)
Lemma categorical_results_no_group (df : DataFrame) :
  categorical_results df None
  = Ok [(VAR_NAME, map pair_label (category_pairs df));
        (ALL, map (fun p => value (cat_all_entry df p)) (category_pairs df))].
Proof.
  unfold categorical_results. simpl.
  rewrite for_each_nested.
  rewrite for_each_ext with
    (g := fun p res => row_step (fun _ => "") [] (pair_label p) (cat_all_entry df p)
                                (fun _ => Ok "") res)
    by (intros; apply categorical_step_row_no_group).
  change [(VAR_NAME, []); (ALL, [])]
    with (results_shape (fun _ : cell => "") [] [] [] (fun _ => [])).
  rewrite rows_loop_shape.
  - fold (category_pairs_of df (columns df)). fold (category_pairs df).
    destruct (map_result_Ok (row_check [] (cat_all_entry df) (fun _ _ => Ok ""))
                (category_pairs df)) as [ys Hys].
    { intros x _. now exists tt. }
    rewrite Hys. reflexivity.
  - simpl. repeat constructor; simpl; intuition discriminate.
Qed.

Lemma categorical_results_group (df : DataFrame) (g : string) :
  distinct_keys df (Some g) ->
  let gvs := unique (column df g) in
  let items := category_pairs_of df (analysis_cols df (Some g)) in
  categorical_results df (Some g)
  = (_ <- getitem df g ;;
     _ <- map_result (row_check gvs (cat_all_entry df) (cat_group_entry df g)) items ;;
     Ok (results_shape (group_key g) gvs
           (map pair_label items)
           (map (fun p => value (cat_all_entry df p)) items)
           (fun gv => map (fun p => value (cat_group_entry df g p gv)) items))).
Proof.
  intros H gvs items. unfold categorical_results.
  rewrite initialize_shape by exact H.
  destruct (getitem df g); simpl; [| reflexivity].
  rewrite for_each_nested.
  rewrite for_each_ext with
    (g := fun p res => row_step (group_key g) gvs (pair_label p) (cat_all_entry df p)
                                (cat_group_entry df g p) res)
    by (intros; apply categorical_step_row).
  rewrite rows_loop_shape by exact H. reflexivity.
Qed.

(** The numerical loop in closed form. *)
Lemma numerical_results_no_group (fot : string -> result float) (df : DataFrame) :
  numerical_results fot df None
  = (_ <- map_result (row_check [] (num_all_entry fot df) (fun _ _ => Ok ""))
                     (columns df) ;;
     Ok [(VAR_NAME, columns df);
         (ALL, map (fun col => value (num_all_entry fot df col)) (columns df))]).
Proof.
  unfold numerical_results. simpl.
  rewrite for_each_ext with
    (g := fun col res => row_step (fun _ => "") [] col (num_all_entry fot df col)
                                  (fun _ => Ok "") res)
    by (intros; apply numerical_step_row_no_group).
  change [(VAR_NAME, []); (ALL, [])]
    with (results_shape (fun _ : cell => "") [] [] [] (fun _ => [])).
  rewrite (rows_loop_shape (fun _ => "") [])
    with (label := fun col : string => col)
    by (simpl; repeat constructor; simpl; intuition discriminate).
  simpl. now rewrite map_id.
Qed.

Lemma numerical_results_group (fot : string -> result float) (df : DataFrame)
  (g : string) :
  distinct_keys df (Some g) ->
  let gvs := unique (column df g) in
  let items := analysis_cols df (Some g) in
  numerical_results fot df (Some g)
  = (_ <- getitem df g ;;
     _ <- map_result (row_check gvs (num_all_entry fot df) (num_group_entry fot df g))
                     items ;;
     Ok (results_shape (group_key g) gvs items
           (map (fun col => value (num_all_entry fot df col)) items)
           (fun gv => map (fun col => value (num_group_entry fot df g col gv)) items))).
Proof.
  intros H gvs items. unfold numerical_results.
  rewrite initialize_shape by exact H.
  destruct (getitem df g); simpl; [| reflexivity].
  rewrite for_each_ext with
    (g := fun col res => row_step (group_key g) gvs col (num_all_entry fot df col)
                                  (num_group_entry fot df g col) res)
    by (intros; apply numerical_step_row).
  rewrite (rows_loop_shape (group_key g) gvs H) with (label := fun col : string => col).
  simpl. now rewrite map_id.
Qed.

(** *** Counting rows *)

Lemma category_total_rows_with (df : DataFrame) (col : string) (v : cell) :
  v <> NA -> category_total df col v = rows_with df col v.
Proof.
  intro Hv. unfold category_total, rows_with, shape0, select_rows, column. simpl.
  induction (rows df) as [| r l IH]; simpl; [reflexivity |].
  destruct (cell_eq_dec (cell_at df col r) v) as [E | E].
  - replace (eq_cell (cell_at df col r) v) with true; [simpl; now rewrite IH |].
    symmetry. apply eq_cell_true. split; congruence.
  - replace (eq_cell (cell_at df col r) v) with false; [exact IH |].
    symmetry. destruct (eq_cell (cell_at df col r) v) eqn:E'; [| reflexivity].
    apply eq_cell_true in E'. tauto.
Qed.

Lemma isna_sum_rows_with (df : DataFrame) (col : string) :
  isna_sum (column df col) = rows_with df col NA.
Proof.
  unfold isna_sum, rows_with.
  induction (column df col) as [| a l IH]; simpl; [reflexivity |].
  destruct a; simpl; try exact IH; now rewrite IH.
Qed.

Lemma dropna_In (l : list cell) (v : cell) : In v (dropna l) <-> In v l /\ v <> NA.
Proof.
  unfold dropna. rewrite filter_In.
  destruct v; simpl; intuition congruence.
Qed.

Lemma categories_In (df : DataFrame) (col : string) (v : cell) :
  In v (categories df col) <-> In v (column df col) /\ v <> NA.
Proof.
  unfold categories. rewrite unique_In. apply dropna_In.
Qed.

Lemma category_pairs_of_In (df : DataFrame) (cols : list string) (col : string)
  (v : cell) :
  In (col, v) (category_pairs_of df cols)
  <-> In col cols /\ v <> NA /\ In v (column df col).
Proof.
  unfold category_pairs_of. rewrite in_flat_map. split.
  - intros [c [Hc Hin]]. apply in_map_iff in Hin.
    destruct Hin as [x [Hx Hin]]. inversion Hx; subst.
    apply categories_In in Hin. tauto.
  - intros [Hc [Hv Hin]]. exists col. split; [assumption |].
    apply in_map. apply categories_In. tauto.
Qed.

Lemma category_pairs_of_NoDup (df : DataFrame) (cols : list string) :
  NoDup cols -> NoDup (category_pairs_of df cols).
Proof.
  unfold category_pairs_of.
  induction cols as [| c cols IH]; intro H; simpl; [constructor |].
  inversion H as [| ? ? Hc Hcols]; subst.
  apply NoDup_app.
  - apply Finite.Injective_map_NoDup; [| apply unique_NoDup].
    intros x y E. now inversion E.
  - now apply IH.
  - intros [c' v] Hin Hin'. apply in_map_iff in Hin.
    destruct Hin as [x [Hx _]]. inversion Hx; subst.
    apply (category_pairs_of_In df cols c' v) in Hin'. tauto.
Qed.

Lemma cat_all_entry_spec (df : DataFrame) (p : string * cell) :
  snd p <> NA -> value (cat_all_entry df p) = pair_all_entry df p.
Proof.
  intro Hv. unfold cat_all_entry, pair_all_entry, count_and_percent, np_truediv, total.
  simpl. rewrite category_total_rows_with by assumption.
  now rewrite isna_sum_rows_with.
Qed.

(** ** The categorical analysis without a group *)

(** C1.  Without a grouping column the categorical analysis returns one row
    for every (column, distinct non-missing value) pair and no other row: the
    pairs are listed column by column, the categories of a column in order of
    first appearance, no pair twice.  The row of a pair is labelled
    "column : category" and its "All" entry is "n (p)" where n is the number
    of rows of the table in which the column has that value and p is n
    divided by the number of non-missing cells of the column, printed as a
    percentage with two decimals. *)
Theorem categorical_rows_without_group (df : DataFrame) :
  wf_table df ->
  get_categorical_var_analysis df None
  = Ok [(VAR_NAME, map pair_label (category_pairs df));
        (ALL, map (pair_all_entry df) (category_pairs df))]
  /\ NoDup (category_pairs df)
  /\ (forall col v, In (col, v) (category_pairs df)
                    <-> In col (columns df) /\ v <> NA /\ In v (column df col))
  /\ (forall col, first_seen (dropna (column df col)) (categories df col)).
Proof.
  intros [Hcols _]. split; [| split; [| split]].
  - unfold get_categorical_var_analysis. rewrite categorical_results_no_group.
    assert (E : map (fun p => value (cat_all_entry df p)) (category_pairs df)
                = map (pair_all_entry df) (category_pairs df)).
    { apply map_ext_in. intros [col v] Hin. apply cat_all_entry_spec.
      apply category_pairs_of_In in Hin. simpl. tauto. }
    rewrite E. unfold bind, DataFrame_of_dict, same_lengths, forallb, snd.
    now rewrite !length_map, Nat.eqb_refl.
  - now apply category_pairs_of_NoDup.
  - intros col v. apply category_pairs_of_In.
  - intro col. apply unique_first_seen.
Qed.

Lemma categorical_rows_without_group_witness :
  wf_table sex_table /\
  get_categorical_var_analysis sex_table None
  = Ok [(VAR_NAME, ["Sex : M"; "Sex : F"]); (ALL, ["3 (60.00%)"; "2 (40.00%)"])].
Proof.
  assert (W : wf_table sex_table).
  { split; [repeat constructor; simpl; tauto | repeat constructor]. }
  split; [exact W |].
  destruct (categorical_rows_without_group sex_table W) as [H _].
  rewrite H. reflexivity.
Defined.

(** ** Counts per group *)

Lemma list_sum_map_add {A : Type} (f g : A -> nat) (l : list A) :
  list_sum (map (fun x => f x + g x) l) = list_sum (map f l) + list_sum (map g l).
Proof.
  induction l as [| a l IH]; simpl; [reflexivity | rewrite IH; lia].
Qed.

Lemma list_sum_map_zero {A : Type} (l : list A) :
  list_sum (map (fun _ => 0) l) = 0.
Proof. induction l; simpl; auto. Qed.

Lemma one_group_per_value (a : cell) (ks : list cell) :
  NoDup ks -> In a ks -> a <> NA ->
  list_sum (map (fun k => if eq_cell a k then 1 else 0) ks) = 1.
Proof.
  intros Hnd Hin Ha. induction ks as [| k ks IH]; simpl in *; [tauto |].
  inversion Hnd as [| ? ? Hk Hks]; subst.
  destruct (eq_cell a k) eqn:E.
  - apply eq_cell_true in E. destruct E as [<- _].
    assert (E : map (fun k => if eq_cell a k then 1 else 0) ks
                = map (fun _ => 0) ks).
    { apply map_ext_in. intros k Hk'.
      destruct (eq_cell a k) eqn:E'; [| reflexivity].
      apply eq_cell_true in E'. destruct E' as [<- _]. contradiction. }
    now rewrite E, list_sum_map_zero.
  - destruct Hin as [-> | Hin].
    + assert (eq_cell a a = true) by (apply eq_cell_true; tauto). congruence.
    + now apply IH.
Qed.

Lemma rows_split_by_group (kf : row -> cell) (p : row -> bool) (ks : list cell)
  (l : list row) :
  NoDup ks ->
  (forall r, In r l -> In (kf r) ks /\ kf r <> NA) ->
  list_sum (map (fun k => List.length (filter (fun r => eq_cell (kf r) k && p r) l)) ks)
  = List.length (filter p l).
Proof.
  intros Hnd. induction l as [| r l IH]; intro H; simpl.
  - apply list_sum_map_zero.
  - assert (IH' := IH (fun r' Hr' => H r' (or_intror Hr'))).
    destruct (H r (or_introl eq_refl)) as [Hin Hna].
    destruct (p r) eqn:Ep; simpl; rewrite <- IH'.
    + transitivity
        (list_sum (map (fun k => (if eq_cell (kf r) k then 1 else 0)
                                 + List.length (filter (fun r' => eq_cell (kf r') k && p r') l))
                       ks)).
      * f_equal. apply map_ext. intro k.
        rewrite andb_true_r. destruct (eq_cell (kf r) k); reflexivity.
      * now rewrite list_sum_map_add, one_group_per_value.
    + f_equal. apply map_ext. intro k. now rewrite andb_false_r.
Qed.

(** C4.  When no row misses its value in the grouping column, the counts of
    a category within the groups, added over all the group values, give the
    count of the category in the whole table: the number reported under
    "All". *)
Theorem group_counts_sum_to_category_total (df : DataFrame) (g col : string)
  (category : cell) (results : dict) (group_values : list cell) :
  _initialize_results_dict df (Some g) = Ok (results, group_values) ->
  (forall r, In r (rows df) -> cell_at df g r <> NA) ->
  list_sum (map (fun group_val => sub_category_total df g group_val col category)
                group_values)
  = category_total df col category.
Proof.
  intros Hinit Hna. unfold _initialize_results_dict, getitem in Hinit.
  destruct (index_of g (columns df)); simpl in Hinit; [| discriminate].
  inversion Hinit; subst. clear Hinit.
  unfold sub_category_total, category_total, shape0, select_rows. simpl.
  apply rows_split_by_group with
    (kf := cell_at df g) (p := fun r => eq_cell (cell_at df col r) category).
  - apply unique_NoDup.
  - intros r Hr. split; [| now apply Hna].
    apply unique_In. unfold column. now apply in_map.
Qed.

Lemma group_counts_sum_to_category_total_witness :
  list_sum (map (fun group_val =>
                   sub_category_total survey_table "Sex" group_val "Smoker" (Str "yes"))
                [Str "M"; Str "F"])
  = category_total survey_table "Smoker" (Str "yes").
Proof.
  apply (group_counts_sum_to_category_total survey_table "Sex" "Smoker" (Str "yes")
           [(VAR_NAME, []); (ALL, []); ("Sex M", []); ("Sex F", [])]).
  - reflexivity.
  - intros r Hr. simpl in Hr.
    repeat (destruct Hr as [<- | Hr]; [discriminate |]). contradiction.
Defined.

(** ** Missing values in the grouping column *)

(** C2.  On the table with "Sex" = [M, missing] and "Age" = [10, 20] grouped by
    "Sex", the missing value is one of the group values: it gets the summary
    column "Sex nan".  No row belongs to that group, so the numerical analysis
    fills the column with the statistics of an empty selection and the
    categorical analysis stops on a division by zero. *)
Theorem missing_group_value_forms_a_group (float_of_text : string -> result float) :
  _initialize_results_dict missing_group_table (Some "Sex")
  = Ok ([(VAR_NAME, []); (ALL, []); ("Sex M", []); ("Sex nan", [])], [Str "M"; NA])
  /\ get_numerical_var_analysis float_of_text missing_group_table (Some "Sex")
     = Ok [(VAR_NAME, ["Age"]);
           (ALL, ["15.00 (7.07) [10.00, 20.00]"]);
           ("Sex M", ["10.00 (nan) [10.00, 10.00]"]);
           ("Sex nan", ["nan (nan) [nan, nan]"])]
  /\ get_categorical_var_analysis missing_group_table (Some "Sex")
     = Raise ZeroDivisionError.
Proof.
  split; [| split]; vm_compute; reflexivity.
Qed.

(** ** The numerical example *)

(** The example as the specification words it: a standard deviation of 0.00
    for the group "F", which has a single row.  And a column whose
    statistics are not those of its non-missing values: the missing cell
    counts for zero in the sum, which moves the values to other partial sums
    and changes the rounding, hence the mean. *)
Lemma numerical_example_counterexample :
  get_numerical_var_analysis no_text age_sex_table (Some "Sex")
  <> Ok [(VAR_NAME, ["Age"]);
         (ALL, ["20.00 (10.00) [10.00, 30.00]"]);
         ("Sex M", ["20.00 (14.14) [10.00, 30.00]"]);
         ("Sex F", ["20.00 (0.00) [20.00, 20.00]"])]
  /\ get_numerical_var_analysis no_text without_missing_table None
     = Ok [(VAR_NAME, ["Ticks"]);
           (ALL, ["600479950316066.62 (2325648847305581.00) [1.00, 9007199254740992.00]"])]
  /\ get_numerical_var_analysis no_text with_missing_table None
     = Ok [(VAR_NAME, ["Ticks"]);
           (ALL, ["600479950316066.88 (2325648847305581.00) [1.00, 9007199254740992.00]"])].
Proof.
  split; [vm_compute; discriminate |].
  split; vm_compute; reflexivity.
Qed.

(** C3 (amended).  For "Age" = [10, 20, 30] grouped by "Sex" = [M, F, M] the
    Age row is "20.00 (10.00) [10.00, 30.00]" under "All",
    "20.00 (14.14) [10.00, 30.00]" under "Sex M" and
    "20.00 (nan) [20.00, 20.00]" under "Sex F": the sample standard deviation
    of the single value of the group F is not a number.  On this example a
    missing value is left out of the four statistics: with one more row of
    the group M whose age is missing, the Age row is the same. *)
Theorem numerical_example (float_of_text : string -> result float) :
  get_numerical_var_analysis float_of_text age_sex_table (Some "Sex")
  = Ok [(VAR_NAME, ["Age"]);
        (ALL, ["20.00 (10.00) [10.00, 30.00]"]);
        ("Sex M", ["20.00 (14.14) [10.00, 30.00]"]);
        ("Sex F", ["20.00 (nan) [20.00, 20.00]"])]
  /\ get_numerical_var_analysis float_of_text age_sex_missing_table (Some "Sex")
     = Ok [(VAR_NAME, ["Age"]);
           (ALL, ["20.00 (10.00) [10.00, 30.00]"]);
           ("Sex M", ["20.00 (14.14) [10.00, 30.00]"]);
           ("Sex F", ["20.00 (nan) [20.00, 20.00]"])].
Proof.
  split; vm_compute; reflexivity.
Qed.

(** ** Alignment of the results dictionary *)

Lemma results_shape_aligned (key : cell -> string) (gvs : list cell)
  (a b : list string) (h : cell -> list string) (n : nat) :
  List.length a = n -> List.length b = n -> (forall gv, List.length (h gv) = n) ->
  aligned n (results_shape key gvs a b h).
Proof.
  intros Ha Hb Hh. unfold aligned, results_shape.
  constructor; [exact Ha |]. constructor; [exact Hb |].
  apply Forall_forall. intros [k v] Hin. apply in_map_iff in Hin.
  destruct Hin as [gv [E _]]. inversion E; subst. apply Hh.
Qed.

Lemma results_shape_keys (key : cell -> string) (gvs : list cell)
  (a b : list string) (h : cell -> list string) :
  keys (results_shape key gvs a b h) = VAR_NAME :: ALL :: map key gvs.
Proof.
  unfold keys, results_shape. simpl. do 2 f_equal.
  rewrite map_map. reflexivity.
Qed.

Lemma aligned_conversion (n : nat) (d : dict) :
  aligned n d -> DataFrame_of_dict d = Ok d.
Proof.
  intro H. unfold DataFrame_of_dict.
  replace (same_lengths d) with true; [reflexivity |].
  symmetry. destruct d as [| [k v] d]; [reflexivity |]. simpl.
  inversion H as [| ? ? Hv Hd]; subst. simpl in *.
  apply forallb_forall. intros kv Hin.
  rewrite Forall_forall in Hd. rewrite (Hd kv Hin). apply Nat.eqb_refl.
Qed.

Lemma categorical_results_aligned (df : DataFrame) (group : option string) (d : dict) :
  distinct_keys df group ->
  categorical_results df group = Ok d ->
  keys d = results_keys df group /\ exists n, aligned n d.
Proof.
  intros Hk Hd. destruct group as [g |].
  - rewrite (categorical_results_group df g Hk) in Hd.
    destruct (getitem df g); simpl in Hd; [| discriminate].
    destruct (map_result _ _); simpl in Hd; [| discriminate].
    inversion Hd; subst. split; [apply results_shape_keys |].
    exists (List.length (category_pairs_of df (analysis_cols df (Some g)))).
    apply results_shape_aligned; intros; now rewrite length_map.
  - rewrite categorical_results_no_group in Hd. inversion Hd; subst.
    split; [reflexivity |].
    exists (List.length (category_pairs df)).
    repeat constructor; simpl; now rewrite length_map.
Qed.

Lemma numerical_results_aligned (fot : string -> result float) (df : DataFrame)
  (group : option string) (d : dict) :
  distinct_keys df group ->
  numerical_results fot df group = Ok d ->
  keys d = results_keys df group /\ exists n, aligned n d.
Proof.
  intros Hk Hd. destruct group as [g |].
  - rewrite (numerical_results_group fot df g Hk) in Hd.
    destruct (getitem df g); simpl in Hd; [| discriminate].
    destruct (map_result _ _); simpl in Hd; [| discriminate].
    inversion Hd; subst. split; [apply results_shape_keys |].
    exists (List.length (analysis_cols df (Some g))).
    apply results_shape_aligned; intros; try reflexivity; now rewrite length_map.
  - rewrite numerical_results_no_group in Hd.
    destruct (map_result _ _); simpl in Hd; [| discriminate].
    inversion Hd; subst. split; [reflexivity |].
    exists (List.length (columns df)).
    repeat constructor; simpl; now rewrite length_map.
Qed.

(** Grouping by a column "Variable" that holds the value "Name" gives the
    group the key "Variable Name": the labels and the entries of the group go
    to the same list, which ends up longer than the list under "All", and the
    conversion is refused. *)
Lemma results_aligned_counterexample :
  numerical_results no_text variable_name_table (Some "Variable")
  = Ok [(VAR_NAME, ["x"; "10.00 (nan) [10.00, 10.00]"]);
        (ALL, ["10.00 (nan) [10.00, 10.00]"])]
  /\ get_numerical_var_analysis no_text variable_name_table (Some "Variable")
     = Raise (ValueError "All arrays must be of the same length")
  /\ get_categorical_var_analysis variable_name_table (Some "Variable")
     = Raise (ValueError "All arrays must be of the same length").
Proof.
  split; [| split]; vm_compute; reflexivity.
Qed.

(** C5 (amended).  When the keys of the results dictionary ("Variable Name",
    "All" and the keys of the group values) are pairwise distinct and the
    loops of either analysis run to their end, the dictionary has exactly
    these keys, in this order, all its lists have one length, and the
    conversion to the summary table succeeds and returns it. *)
Theorem results_aligned_at_conversion (float_of_text : string -> result float)
  (df : DataFrame) (group : option string) :
  distinct_keys df group ->
  (forall d, categorical_results df group = Ok d ->
             keys d = results_keys df group
             /\ (exists n, aligned n d)
             /\ get_categorical_var_analysis df group = Ok d)
  /\ (forall d, numerical_results float_of_text df group = Ok d ->
                keys d = results_keys df group
                /\ (exists n, aligned n d)
                /\ get_numerical_var_analysis float_of_text df group = Ok d).
Proof.
  intro Hk. split; intros d Hd.
  - destruct (categorical_results_aligned df group d Hk Hd) as [K [n Hn]].
    repeat split; [exact K | now exists n |].
    unfold get_categorical_var_analysis. rewrite Hd. simpl.
    now apply aligned_conversion with (n := n).
  - destruct (numerical_results_aligned float_of_text df group d Hk Hd) as [K [n Hn]].
    repeat split; [exact K | now exists n |].
    unfold get_numerical_var_analysis. rewrite Hd. simpl.
    now apply aligned_conversion with (n := n).
Qed.

Lemma results_aligned_at_conversion_witness :
  distinct_keys survey_table (Some "Sex")
  /\ exists d, categorical_results survey_table (Some "Sex") = Ok d
               /\ keys d = [VAR_NAME; ALL; "Sex M"; "Sex F"]
               /\ get_categorical_var_analysis survey_table (Some "Sex") = Ok d.
Proof.
  assert (K : distinct_keys survey_table (Some "Sex")).
  { vm_compute. repeat constructor; simpl; intuition discriminate. }
  split; [exact K |].
  destruct (results_aligned_at_conversion no_text survey_table (Some "Sex") K)
    as [Hc _].
  eexists. split; [vm_compute; reflexivity |].
  destruct (Hc _ eq_refl) as [Hkeys [_ Hconv]].
  split; [exact Hkeys | exact Hconv].
Defined.

(** ** Rows of a summary that can be computed *)

Lemma conversion_inv (d s : dict) : DataFrame_of_dict d = Ok s -> s = d.
Proof.
  unfold DataFrame_of_dict. destruct (same_lengths d); intro H; now inversion H.
Qed.

Lemma column_same_header (df df' : DataFrame) (col : string) :
  columns df' = columns df ->
  Permutation (rows df) (rows df') ->
  Permutation (column df col) (column df' col).
Proof.
  intros Hc Hp. unfold column.
  replace (cell_at df' col) with (cell_at df col)
    by (unfold cell_at; now rewrite Hc).
  now apply Permutation_map.
Qed.

Lemma row_check_Ok_inv {I : Type} (gvs : list cell) (all_entry : I -> result string)
  (group_entry : I -> cell -> result string) (items : list I) (ys : list unit) :
  map_result (row_check gvs all_entry group_entry) items = Ok ys ->
  forall it, In it items ->
    (exists y, all_entry it = Ok y)
    /\ forall gv, In gv gvs -> exists x, group_entry it gv = Ok x.
Proof.
  intros H it Hit.
  destruct (map_result_Ok_inv _ _ _ H it Hit) as [u Hu].
  unfold row_check in Hu.
  destruct (all_entry it) as [y |]; simpl in Hu; [| discriminate].
  split; [now exists y |].
  destruct (map_result (group_entry it) gvs) as [xs |] eqn:E; simpl in Hu;
    [| discriminate].
  now apply (map_result_Ok_inv _ _ _ E).
Qed.

Lemma row_check_Ok {I : Type} (gvs : list cell) (all_entry : I -> result string)
  (group_entry : I -> cell -> result string) (items : list I) :
  (forall it, In it items ->
     (exists y, all_entry it = Ok y)
     /\ forall gv, In gv gvs -> exists x, group_entry it gv = Ok x) ->
  exists ys, map_result (row_check gvs all_entry group_entry) items = Ok ys.
Proof.
  intro H. apply map_result_Ok. intros it Hit.
  destruct (H it Hit) as [[y Hy] Hg]. unfold row_check. rewrite Hy. simpl.
  destruct (map_result_Ok (group_entry it) gvs Hg) as [xs Hxs].
  rewrite Hxs. simpl. now exists tt.
Qed.

(** ** Quoting of identifiers *)

Lemma append_assoc (a b c : string) :
  String.append (String.append a b) c = String.append a (String.append b c).
Proof.
  induction a as [| x a IH]; simpl; [reflexivity | now rewrite IH].
Qed.

Lemma append_empty_r (a : string) : String.append a "" = a.
Proof.
  induction a as [| x a IH]; simpl; [reflexivity | now rewrite IH].
Qed.

Lemma append_length (a b : string) :
  String.length (String.append a b) = String.length a + String.length b.
Proof.
  induction a as [| x a IH]; simpl; [reflexivity | now rewrite IH].
Qed.

Lemma count_char_append (c : ascii) (a b : string) :
  count_char c (String.append a b) = count_char c a + count_char c b.
Proof.
  induction a as [| x a IH]; simpl; [reflexivity | rewrite IH; lia].
Qed.

Lemma reformat_columns_quoted_list (cols : list string) :
  _reformat_columns cols = quoted_list cols.
Proof.
  unfold _reformat_columns, join.
  induction cols as [| c cols IH]; [reflexivity |].
  destruct cols as [| c' cols].
  - reflexivity.
  - change (String.concat "," (map (fun c0 => String.append dquote (String.append c0 dquote))
                                   (c :: c' :: cols)))
      with (String.append (String.append dquote (String.append c dquote))
              (String.append ","
                 (String.concat "," (map (fun c0 => String.append dquote (String.append c0 dquote))
                                         (c' :: cols))))).
    rewrite IH.
    change (quoted_list (c :: c' :: cols))
      with (String.append dquote
              (String.append c
                 (String.append dquote (String.append "," (quoted_list (c' :: cols)))))).
    now rewrite !append_assoc.
Qed.

Lemma quoted_list_quotes (cols : list string) :
  count_char dquote_char (quoted_list cols)
  = 2 * List.length cols + list_sum (map (count_char dquote_char) cols).
Proof.
  induction cols as [| c cols IH]; [reflexivity |].
  destruct cols as [| c' cols].
  - cbn [quoted_list List.length map list_sum].
    rewrite !count_char_append.
    change (count_char dquote_char dquote) with 1.
    change (count_char dquote_char "") with 0.
    unfold list_sum. cbn [fold_right]. lia.
  - change (quoted_list (c :: c' :: cols))
      with (String.append dquote
              (String.append c
                 (String.append dquote (String.append "," (quoted_list (c' :: cols)))))).
    rewrite !count_char_append, IH.
    change (count_char dquote_char dquote) with 1.
    change (count_char dquote_char ",") with 0.
    cbn [List.length map]. unfold list_sum. cbn [fold_right]. lia.
Qed.

Lemma quoted_list_length (cols : list string) :
  String.length (quoted_list cols)
  = list_sum (map String.length cols) + 2 * List.length cols + (List.length cols - 1).
Proof.
  induction cols as [| c cols IH]; [reflexivity |].
  destruct cols as [| c' cols].
  - cbn [quoted_list List.length map list_sum].
    rewrite !append_length.
    change (String.length dquote) with 1.
    change (String.length "") with 0.
    unfold list_sum. cbn [fold_right]. lia.
  - change (quoted_list (c :: c' :: cols))
      with (String.append dquote
              (String.append c
                 (String.append dquote (String.append "," (quoted_list (c' :: cols)))))).
    rewrite !append_length, IH.
    change (String.length dquote) with 1.
    change (String.length ",") with 1.
    cbn [List.length map]. unfold list_sum. cbn [fold_right]. lia.
Qed.

Lemma fstr_cons (a : string) (l : list string) :
  fstr (a :: l) = String.append a (fstr l).
Proof.
  unfold fstr. destruct l as [| b l]; simpl; [now rewrite append_empty_r | reflexivity].
Qed.

(** C10.  The helper that renders a list of column names returns the names
    in order, each wrapped in exactly one pair of double quotes and separated
    by commas, and nothing else: the characters of a name are copied as they
    are, so the output holds two double quotes per name plus those the names
    contain, none being escaped.  The statement of [get_table] with an
    explicit column list embeds this text as it is, and so does the primary
    key clause of the CREATE TABLE statement. *)
Theorem reformat_columns_wraps_without_escaping (cols : list string) :
  _reformat_columns cols = quoted_list cols
  /\ count_char dquote_char (_reformat_columns cols)
     = 2 * List.length cols + list_sum (map (count_char dquote_char) cols)
  /\ String.length (_reformat_columns cols)
     = list_sum (map String.length cols) + 2 * List.length cols + (List.length cols - 1)
  /\ (forall dm table_name,
        get_table_query dm table_name (Some cols)
        = fstr ["SELECT "; quoted_list cols; "  FROM "; schema dm; ".";
                dquote; table_name; dquote])
  /\ (forall dm table_name types,
        create_table_query dm table_name types (Some cols)
        = String.append
            (String.append
               (fstr ["CREATE TABLE "; schema dm; "."; dquote; table_name; dquote; " ("])
               (_reformat_columns_and_types types))
            (fstr [", PRIMARY KEY ("; quoted_list cols; ") );"]))
  /\ _reformat_columns [fstr ["a"; dquote; "b"]] = fstr [dquote; "a"; dquote; "b"; dquote].
Proof.
  rewrite reformat_columns_quoted_list.
  split; [reflexivity |].
  split; [apply quoted_list_quotes |].
  split; [apply quoted_list_length |].
  split; [| split; [| reflexivity]].
  - intros dm table_name. unfold get_table_query.
    rewrite reformat_columns_quoted_list.
    rewrite !fstr_cons. rewrite !append_assoc. reflexivity.
  - intros dm table_name types. unfold create_table_query.
    now rewrite reformat_columns_quoted_list.
Qed.

(** ** The CREATE TABLE statement *)

Lemma types_get_In (types : list (string * string)) (c t : string) :
  NoDup (map fst types) -> In (c, t) types -> types_get types c = t.
Proof.
  induction types as [| [k v] types IH]; simpl; intros Hnd Hin; [tauto |].
  inversion Hnd as [| ? ? Hk Hrest]; subst.
  destruct Hin as [E | Hin].
  - inversion E; subst. now rewrite String.eqb_refl.
  - destruct (String.eqb k c) eqn:Ekc.
    + apply String.eqb_eq in Ekc. subst k. exfalso. apply Hk.
      apply in_map_iff. now exists (c, t).
    + now apply IH.
Qed.

Lemma reformat_columns_and_types_definitions (types : list (string * string)) :
  NoDup (map fst types) ->
  _reformat_columns_and_types types = join "," (map column_definition types).
Proof.
  intro Hnd. unfold _reformat_columns_and_types. rewrite map_map. f_equal.
  apply map_ext_in. intros [c t] Hin. unfold column_definition. simpl fst. simpl snd.
  now rewrite (types_get_In types c t Hnd Hin).
Qed.

Lemma create_table_query_statement (dm : DataManager) (table_name : string)
  (types : list (string * string)) (primary_key : option (list string)) :
  NoDup (map fst types) ->
  create_table_query dm table_name types primary_key
  = create_table_statement (schema dm) table_name types primary_key.
Proof.
  intro Hnd. unfold create_table_query, create_table_statement.
  rewrite (reformat_columns_and_types_definitions types Hnd).
  destruct primary_key as [pk |].
  - rewrite reformat_columns_quoted_list.
    rewrite !fstr_cons. change (fstr []) with "".
    rewrite ?append_empty_r, !append_assoc. reflexivity.
  - rewrite !fstr_cons. change (fstr []) with "".
    rewrite ?append_empty_r, !append_assoc. reflexivity.
Qed.

Lemma executed_app (l l' : list entry) : executed (l ++ l') = executed l ++ executed l'.
Proof. apply flat_map_app. Qed.

(** C8.  Once its cursor is open, [_create_table] sends exactly one statement
    to the backend.  The statement is CREATE TABLE on the quoted table name
    in the schema, with the columns of the type map in the order of the map,
    each rendered as the quoted name, a space and the type, separated by
    commas; with a primary key the statement ends with the clause PRIMARY KEY
    on the quoted key columns, separated by commas between parentheses. *)
Theorem create_table_issues_one_statement (B : backend) (dm : DataManager)
  (table_name : string) (types : list (string * string))
  (primary_key : option (list string)) (w : world) :
  NoDup (map fst types) ->
  fails B (log w) Cursor = None ->
  executed (log (snd (_create_table B dm table_name types primary_key w)))
  = executed (log w)
    ++ [create_table_statement (schema dm) table_name types primary_key].
Proof.
  intros Hnd Hcur.
  rewrite <- (create_table_query_statement dm table_name types primary_key Hnd).
  unfold _create_table, io_bind, try_except_psycopg2, send, raise.
  rewrite Hcur. cbn [log files fst snd].
  destruct (fails B (log w ++ [(Cursor, None)]) _) as [e |]; cbn [log files fst snd].
  - rewrite !executed_app. simpl. now rewrite app_nil_r.
  - destruct (fails B _ Commit) as [e |]; cbn [log files fst snd];
      rewrite !executed_app; simpl; now rewrite !app_nil_r.
Qed.

Lemma create_table_issues_one_statement_witness :
  executed (log (snd (_create_table accepting_backend example_manager "patients"
                        patients_types (Some ["name"]) fresh_world)))
  = [fstr ["CREATE TABLE public."; dquote; "patients"; dquote; " (";
           dquote; "name"; dquote; " text,"; dquote; "Age"; dquote; " numeric";
           ", PRIMARY KEY ("; dquote; "name"; dquote; ") );"]].
Proof.
  rewrite (create_table_issues_one_statement accepting_backend example_manager
             "patients" patients_types (Some ["name"]) fresh_world).
  - reflexivity.
  - repeat constructor; simpl; intuition discriminate.
  - reflexivity.
Defined.

(** ** Failures of the backend *)

Lemma temp_written (fs : list string) :
  existsb (String.eqb TEMP) (if existsb (String.eqb TEMP) fs then fs else TEMP :: fs)
  = true.
Proof.
  destruct (existsb (String.eqb TEMP) fs) eqn:E; [exact E | reflexivity].
Qed.

Lemma temp_removed (fs : list string) :
  ~ In TEMP (filter (fun f => negb (String.eqb TEMP f)) fs).
Proof.
  intro H. apply filter_In in H. destruct H as [_ H].
  now rewrite String.eqb_refl in H.
Qed.

Ltac unfold_gateway :=
  unfold run, raised, _connect, create_and_fill_table, _create_table,
    get_column_names, get_table, fetchall, get_description, to_csv, os_remove,
    io_bind, try_except_psycopg2, send, raise, ret, lift.

Ltac ask_backend :=
  match goal with
  | |- context [fails ?B ?l ?r] =>
      let E := fresh "E" in
      destruct (fails B l r) eqn:E; cbn [log files fst snd]
  end.

Ltac close_log :=
  eexists; split;
  [ repeat rewrite <- app_assoc; cbn [app]; reflexivity
  | let Hin := fresh "Hin" in
    intros ? ? Hin; cbn [In] in Hin;
    repeat match goal with
           | H : _ \/ _ |- _ => destruct H as [H | H]
           end;
    try contradiction;
    match goal with
    | H : (_, _) = (_, _) |- _ => inversion H; subst; reflexivity
    end ].

(** A statement that fails in [_create_table]: the error that comes back is
    a plain [Exception], not the class the taxonomy names.  And a connection
    that cannot be opened: the error of the driver has no [pgerror], so the
    [Exception] that comes back holds [None] and no text at all. *)
Lemma error_taxonomy_counterexample :
  fst (run execute_failing_backend
           (CallCreateTable example_manager "patients" patients_types None)
           fresh_world)
  = Some (Exception (Some "ERROR: permission denied"))
  /\ class_name (Exception (Some "ERROR: permission denied")) <> taxonomy OpCreateTable
  /\ fst (run unreachable_backend
              (CallConnect "ann" "secret" "clinic" "localhost" "5432") fresh_world)
     = Some (Exception None).
Proof.
  split; [reflexivity | split; [discriminate | reflexivity]].
Qed.

(** C6 (amended).  In every operation of the gateway a failure of the backend
    ends the call with an exception; none is swallowed.  The exception holds
    the [pgerror] of the backend's error and nothing else: the text of the
    server when the error has one, [None] when it has none.  A failure of a
    request sent inside a [try] (connect, execute, commit, bulk copy, fetch)
    is caught and raised again as a plain [Exception] holding that [pgerror],
    whatever the operation; a failure to open the cursor, which is outside
    the [try], reaches the caller as the backend's own error. *)
Theorem backend_failures_are_reraised (B : backend) (call : gateway_call) (w : world) :
  exists new,
    log (snd (run B call w)) = log w ++ new
    /\ forall req e, In (req, Some e) new ->
                     fst (run B call w) = Some (reraised req e).
Proof.
  destruct call.
  - unfold_gateway. ask_backend; close_log.
  - unfold_gateway. remember (create_table_query dm table_name types primary_key) as q.
    ask_backend; [close_log |].
    ask_backend; [close_log |].
    ask_backend; close_log.
  - unfold_gateway. remember (create_table_query dm table_name types primary_key) as q.
    ask_backend; [close_log |].
    ask_backend; [close_log |].
    ask_backend; [close_log |].
    destruct (select_columns df (map fst types)) as [df' |]; cbn [log files fst snd];
      [| close_log].
    remember (fstr [schema dm; "."; dquote; table_name; dquote]) as t.
    ask_backend; [close_log |].
    ask_backend; [rewrite ?temp_written; cbn [log files fst snd]; close_log |].
    ask_backend; rewrite ?temp_written; cbn [log files fst snd]; close_log.
  - unfold_gateway. remember (column_names_query table_name) as q.
    ask_backend; [close_log |].
    ask_backend; [close_log |].
    ask_backend; close_log.
  - unfold_gateway. remember (get_table_query dm table_name cols) as q.
    ask_backend; [close_log |].
    ask_backend; [close_log |].
    ask_backend; close_log.
Qed.

(** ** A bulk load that fails *)

Lemma replay_snoc (l : list entry) (x : entry) :
  replay (l ++ [x]) = store_step (replay l) x.
Proof.
  unfold replay. now rewrite fold_left_app.
Qed.

Lemma store_step_commit_failed (s : store) (e : pgerror) :
  store_step s (Commit, Some e) = s.
Proof. reflexivity. Qed.

Ltac last_entry H :=
  rewrite ?app_assoc in H; apply app_inj_tail in H;
  let H' := fresh "H" in
  destruct H as [_ H']; inversion H'; subst.

(** With a backend that refuses the bulk copy, the error that comes back is
    a plain [Exception], not the class the taxonomy names.  And with a
    backend that refuses the cursor of the bulk copy, the load fails outside
    the [try]: the error of the backend comes back as it is and the temporary
    file stays. *)
Lemma bulk_load_counterexample :
  fst (create_and_fill_table copy_failing_backend example_manager patients_table
         "patients" patients_types None fresh_world)
  = Raise (Exception (Some "ERROR: invalid input syntax"))
  /\ class_name (Exception (Some "ERROR: invalid input syntax")) <> taxonomy OpBulkLoad
  /\ fst (_create_table second_cursor_failing_backend example_manager "patients"
            patients_types None fresh_world)
     = Ok tt
  /\ fst (create_and_fill_table second_cursor_failing_backend example_manager
            patients_table "patients" patients_types None fresh_world)
     = Raise (Psycopg2Error (Some "connection already closed"))
  /\ In TEMP (files (snd (create_and_fill_table second_cursor_failing_backend
                            example_manager patients_table "patients"
                            patients_types None fresh_world))).
Proof.
  split; [reflexivity |]. split; [discriminate |].
  split; [reflexivity |]. split; [reflexivity |].
  vm_compute. now left.
Qed.

(** C7 (amended).  Let the creation of the table succeed in
    [create_and_fill_table] and let the backend then refuse the bulk copy or
    its commit, the error having the [pgerror] [e] (the backend's text, or
    [None] when the error has none).  Then the call ends with a plain
    [Exception] holding [e]; the temporary file is gone when the exception
    leaves; the CREATE TABLE statement was executed and committed, and after
    that commit the call has sent nothing but the request for a cursor, the
    bulk copy and, when the copy was accepted, the commit that failed: no
    statement undoes the creation and the copy is never committed, so the
    table stays created, without rows.  In the model of the store, unless the
    transaction of the session was already in a failed state, what the store
    keeps is what it kept before, the statements that were pending and the
    CREATE TABLE statement. *)
Theorem bulk_load_failure_cleans_up (B : backend) (dm : DataManager) (df : DataFrame)
  (table_name : string) (types : list (string * string))
  (primary_key : option (list string)) (w : world) (e : pgerror) :
  fst (_create_table B dm table_name types primary_key w) = Ok tt ->
  (exists l req,
      log (snd (create_and_fill_table B dm df table_name types primary_key w))
      = log (snd (_create_table B dm table_name types primary_key w))
        ++ l ++ [(req, Some e)]
      /\ req <> Cursor) ->
  fst (create_and_fill_table B dm df table_name types primary_key w)
  = Raise (Exception e)
  /\ ~ In TEMP (files (snd (create_and_fill_table B dm df table_name types
                             primary_key w)))
  /\ (exists df' tail,
        select_columns df (map fst types) = Ok df'
        /\ log (snd (create_and_fill_table B dm df table_name types primary_key w))
           = log w
             ++ [(Cursor, None);
                 (Execute (create_table_query dm table_name types primary_key), None);
                 (Commit, None);
                 (Cursor, None)]
             ++ tail
        /\ (tail = [(CopyFrom (fstr [schema dm; "."; dquote; table_name; dquote])
                              "!" " " df', Some e)]
            \/ tail = [(CopyFrom (fstr [schema dm; "."; dquote; table_name; dquote])
                                 "!" " " df', None);
                       (Commit, Some e)]))
  /\ (broken (replay (log w)) = false ->
      durable (replay (log (snd (create_and_fill_table B dm df table_name types
                                   primary_key w))))
      = durable (replay (log w)) ++ pending (replay (log w))
        ++ [Execute (create_table_query dm table_name types primary_key)]).
Proof.
  assert (Hstore : forall q t df' o,
             broken (replay (log w)) = false ->
             durable (store_step
                        (store_step
                           (store_step
                              (store_step
                                 (store_step (replay (log w)) (Cursor, None))
                                 (Execute q, None))
                              (Commit, None))
                           (Cursor, None))
                        (CopyFrom t "!" " " df', o))
             = durable (replay (log w)) ++ pending (replay (log w)) ++ [Execute q]).
  { intros q t df' o. destruct (replay (log w)) as [d p b].
    simpl. intros ->. destruct o; reflexivity. }
  unfold_gateway. remember (create_table_query dm table_name types primary_key) as q.
  ask_backend; [intro Hc; discriminate Hc |].
  ask_backend; [intro Hc; discriminate Hc |].
  ask_backend; [intro Hc; discriminate Hc |].
  intros _.
  destruct (select_columns df (map fst types)) as [df' |]; cbn [log files fst snd].
  - remember (fstr [schema dm; "."; dquote; table_name; dquote]) as t.
    ask_backend.
    { intros [l [req [Hl Hreq]]]. last_entry Hl. contradiction. }
    ask_backend; rewrite ?temp_written; cbn [log files fst snd].
    { intros [l [req [Hl Hreq]]]. last_entry Hl.
      split; [reflexivity |]. split; [apply temp_removed |]. split.
      - eexists. eexists. split; [reflexivity |]. split.
        + repeat rewrite <- app_assoc. cbn [app]. reflexivity.
        + now left.
      - intro Hb. rewrite !replay_snoc. now apply Hstore. }
    ask_backend; rewrite ?temp_written; cbn [log files fst snd].
    { intros [l [req [Hl Hreq]]]. last_entry Hl.
      split; [reflexivity |]. split; [apply temp_removed |]. split.
      - eexists. eexists. split; [reflexivity |]. split.
        + repeat rewrite <- app_assoc. cbn [app]. reflexivity.
        + now right.
      - intro Hb.
        rewrite replay_snoc, store_step_commit_failed, !replay_snoc.
        now apply Hstore. }
    intros [l [req [Hl Hreq]]]. last_entry Hl.
  - intros [l [req [Hl Hreq]]]. last_entry Hl.
Qed.

Lemma bulk_load_failure_cleans_up_witness :
  fst (create_and_fill_table copy_failing_backend example_manager patients_table
         "patients" patients_types None fresh_world)
  = Raise (Exception (Some "ERROR: invalid input syntax"))
  /\ ~ In TEMP (files (snd (create_and_fill_table copy_failing_backend example_manager
                             patients_table "patients" patients_types None
                             fresh_world)))
  /\ (exists df' tail,
        select_columns patients_table (map fst patients_types) = Ok df'
        /\ log (snd (create_and_fill_table copy_failing_backend example_manager
                       patients_table "patients" patients_types None fresh_world))
           = log fresh_world
             ++ [(Cursor, None);
                 (Execute (create_table_query example_manager "patients"
                             patients_types None), None);
                 (Commit, None);
                 (Cursor, None)]
             ++ tail
        /\ (tail = [(CopyFrom (fstr [schema example_manager; "."; dquote; "patients";
                                     dquote])
                              "!" " " df', Some (Some "ERROR: invalid input syntax"))]
            \/ tail = [(CopyFrom (fstr [schema example_manager; "."; dquote;
                                        "patients"; dquote])
                                 "!" " " df', None);
                       (Commit, Some (Some "ERROR: invalid input syntax"))]))
  /\ (broken (replay (log fresh_world)) = false ->
      durable (replay (log (snd (create_and_fill_table copy_failing_backend
                                   example_manager patients_table "patients"
                                   patients_types None fresh_world))))
      = durable (replay (log fresh_world)) ++ pending (replay (log fresh_world))
        ++ [Execute (create_table_query example_manager "patients" patients_types
                       None)]).
Proof.
  apply (bulk_load_failure_cleans_up copy_failing_backend example_manager
           patients_table "patients" patients_types None fresh_world
           (Some "ERROR: invalid input syntax")).
  - reflexivity.
  - exists [(Cursor, None)].
    exists (CopyFrom (fstr ["public"; "."; dquote; "patients"; dquote]) "!" " "
              (mkDataFrame ["name"; "Age"] [[Str "Ann"; Num 31]; [Str "Bob"; Num 47]])).
    split; [reflexivity | discriminate].
Defined.

(** ** Row permutations and the numerical analysis *)

(** *** Integers as floats *)

Lemma iter_pos_nat {A : Type} (f : A -> A) (p : positive) (x : A) :
  iter_pos f p x = Nat.iter (Pos.to_nat p) f x.
Proof.
  revert x. induction p as [p IH | p IH |]; intro x; cbn [iter_pos].
  - rewrite !IH, Pos2Nat.inj_xI.
    replace (S (2 * Pos.to_nat p)) with (Pos.to_nat p + S (Pos.to_nat p))%nat by lia.
    now rewrite Nat.iter_add, Nat.iter_succ_r.
  - rewrite !IH, Pos2Nat.inj_xO.
    replace (2 * Pos.to_nat p)%nat with (Pos.to_nat p + Pos.to_nat p)%nat by lia.
    now rewrite Nat.iter_add.
  - reflexivity.
Qed.

Lemma shr_1_lower (mrs : shr_record) (k : Z) :
  (0 <= k)%Z -> (2 * k <= shr_m mrs)%Z -> (k <= shr_m (shr_1 mrs))%Z.
Proof.
  destruct mrs as [m r s]. cbn [shr_m]. intros Hk H.
  destruct m as [| [p | p |] |]; cbn [shr_1 shr_m]; lia.
Qed.

Lemma shr_steps_lower (n : nat) (mrs : shr_record) :
  (2 ^ Z.of_nat n <= shr_m mrs)%Z -> (1 <= shr_m (Nat.iter n shr_1 mrs))%Z.
Proof.
  revert mrs. induction n as [| n IH]; intros mrs H.
  - exact H.
  - rewrite Nat.iter_succ_r. apply IH. apply shr_1_lower.
    + apply Z.pow_nonneg. lia.
    + rewrite Nat2Z.inj_succ, Z.pow_succ_r in H by lia. exact H.
Qed.

Lemma digits2_pos_lower (m : positive) :
  (2 ^ (Zpos (digits2_pos m) - 1) <= Zpos m)%Z.
Proof.
  induction m as [m IH | m IH |]; cbn [digits2_pos].
  - rewrite Pos2Z.inj_succ.
    replace (Z.succ (Zpos (digits2_pos m)) - 1)%Z
      with (Z.succ (Zpos (digits2_pos m) - 1)) by lia.
    rewrite Z.pow_succ_r by lia. lia.
  - rewrite Pos2Z.inj_succ.
    replace (Z.succ (Zpos (digits2_pos m)) - 1)%Z
      with (Z.succ (Zpos (digits2_pos m) - 1)) by lia.
    rewrite Z.pow_succ_r by lia. lia.
  - reflexivity.
Qed.

Lemma shr_record_of_loc_m (m : Z) (l : location) : shr_m (shr_record_of_loc m l) = m.
Proof. destruct l as [| []]; reflexivity. Qed.

(** Rounding a positive mantissa whose exponent is not below the least one
    leaves a positive mantissa, with an exponent that is not below the least
    one either. *)
Lemma shr_fexp_positive (m : positive) (e : Z) (l : location) :
  (emin fprec femax <= e)%Z ->
  (1 <= shr_m (fst (shr_fexp fprec femax (Zpos m) e l)))%Z
  /\ (emin fprec femax <= snd (shr_fexp fprec femax (Zpos m) e l))%Z.
Proof.
  intro He. unfold shr_fexp, shr. cbn [Zdigits2].
  pose proof (digits2_pos_lower m) as Hd.
  destruct (fexp fprec femax (Zpos (digits2_pos m) + e) - e)%Z as [| p | p] eqn:E;
    cbn [fst snd]; rewrite ?shr_record_of_loc_m; try (split; lia).
  split.
  - rewrite iter_pos_nat. apply shr_steps_lower.
    rewrite shr_record_of_loc_m, positive_nat_Z.
    etransitivity; [| exact Hd].
    apply Z.pow_le_mono_r; [lia |].
    unfold fexp, emin, fprec, femax in *. lia.
  - unfold fexp, emin, fprec, femax in *. lia.
Qed.

Lemma round_nearest_even_positive (m : Z) (l : location) :
  (1 <= m)%Z -> (1 <= round_nearest_even m l)%Z.
Proof.
  intro H. destruct l as [| []]; cbn [round_nearest_even]; try lia.
  destruct (Z.even m); lia.
Qed.

Lemma binary_round_aux_positive (sx : bool) (m : positive) (e : Z) (l : location) :
  (emin fprec femax <= e)%Z ->
  finite_or_infinite (binary_round_aux fprec femax sx (Zpos m) e l).
Proof.
  intro He. unfold binary_round_aux.
  destruct (shr_fexp_positive m e l He) as [H1 H2].
  destruct (shr_fexp fprec femax (Zpos m) e l) as [mrs' e']. cbn [fst snd] in H1, H2.
  pose proof (round_nearest_even_positive _ (loc_of_shr_record mrs') H1) as H3.
  destruct (round_nearest_even (shr_m mrs') (loc_of_shr_record mrs')) as [| m' | m'];
    try lia.
  destruct (shr_fexp_positive m' e' loc_Exact H2) as [H4 H5].
  destruct (shr_fexp fprec femax (Zpos m') e' loc_Exact) as [mrs'' e''].
  cbn [fst] in H4.
  destruct (shr_m mrs'') as [| m'' | m'']; try lia.
  destruct (e'' <=? femax - fprec)%Z; exact I.
Qed.

Lemma float_of_Z_cases (z : Z) :
  z <> 0%Z -> finite_or_infinite (float_of_Z z).
Proof.
  intro Hz. unfold float_of_Z, binary_normalize.
  destruct z as [| m | m]; [contradiction | |]; unfold binary_round, shl_align;
    destruct (fexp fprec femax (Zpos (digits2_pos m) + 0) - 0)%Z eqn:E;
    apply binary_round_aux_positive; unfold fexp, emin, fprec, femax in *; lia.
Qed.

(** *** The order of floats *)

Lemma py_float_of_int_comparable (z : Z) (f : float) :
  py_float_of_int z = Ok f -> comparable f.
Proof.
  unfold py_float_of_int. destruct (Z.eq_dec z 0) as [-> | Hz].
  - intro H. inversion H. exact I.
  - pose proof (float_of_Z_cases z Hz) as Hc.
    destruct (float_of_Z z); cbn [finite_or_infinite] in Hc; intro H;
      inversion H; subst; exact I || contradiction.
Qed.

Lemma flt_finite (s1 : bool) (m1 : positive) (e1 : Z) (s2 : bool) (m2 : positive)
  (e2 : Z) :
  flt (S754_finite s1 m1 e1) (S754_finite s2 m2 e2) = true
  <-> (s1 = true /\ s2 = false)
      \/ (s1 = false /\ s2 = false /\ (e1 < e2 \/ e1 = e2 /\ Zpos m1 < Zpos m2))%Z
      \/ (s1 = true /\ s2 = true /\ (e2 < e1 \/ e1 = e2 /\ Zpos m2 < Zpos m1))%Z.
Proof.
  unfold flt, SFltb. cbn [SFcompare].
  change (Pos.compare_cont Eq m1 m2) with (Pos.compare m1 m2).
  destruct s1, s2; destruct (Z.compare_spec e1 e2) as [He | He | He];
    destruct (Pos.compare_spec m1 m2) as [Hm | Hm | Hm]; cbn [CompOpp];
    split; intro K; try discriminate K; try reflexivity; try lia.
Qed.

Lemma flt_trans (a b c : float) :
  flt a b = true -> flt b c = true -> flt a c = true.
Proof.
  destruct a as [sa | sa | | sa ma ea], b as [sb | sb | | sb mb eb],
    c as [sc | sc | | sc mc ec];
    try (intros H1 H2; apply flt_finite in H1; apply flt_finite in H2;
         apply flt_finite; destruct sa, sb, sc;
         intuition (try discriminate; try lia); fail);
    unfold flt, SFltb; cbn [SFcompare];
    try destruct sa; try destruct sb; try destruct sc;
    intros H1 H2; try discriminate H1; try discriminate H2; reflexivity.
Qed.

Lemma flt_irrefl (a : float) : flt a a = false.
Proof.
  destruct a as [s | s | | s m e]; try (destruct s; reflexivity); try reflexivity.
  destruct (flt (S754_finite s m e) (S754_finite s m e)) eqn:E; [| reflexivity].
  apply flt_finite in E. destruct s; intuition (try discriminate; try lia).
Qed.

Lemma flt_total (a b : float) :
  comparable a -> comparable b -> flt a b = false -> flt b a = false -> a = b.
Proof.
  destruct a as [sa | sa | | sa ma ea], b as [sb | sb | | sb mb eb];
    try (destruct sa); try (destruct sb); cbn [comparable];
    intros Ha Hb H1 H2; try contradiction; try discriminate H1;
    try discriminate H2; try reflexivity.
  all: assert (N1 : ~ flt (S754_finite _ ma ea) (S754_finite _ mb eb) = true)
         by (rewrite H1; discriminate);
       assert (N2 : ~ flt (S754_finite _ mb eb) (S754_finite _ ma ea) = true)
         by (rewrite H2; discriminate);
       rewrite flt_finite in N1, N2;
       assert (ea = eb /\ ma = mb) as [-> ->]
         by (intuition (try discriminate; try lia)); reflexivity.
Qed.

(** *** Minimum and maximum *)

Lemma fold_fmin_least (v : list float) (x : float) :
  Forall comparable (x :: v) ->
  In (fold_left fmin v x) (x :: v)
  /\ forall y, In y (x :: v) -> flt y (fold_left fmin v x) = false.
Proof.
  revert x. induction v as [| y v IH]; intros x Hc.
  - split; [now left |]. intros y [<- | []]. apply flt_irrefl.
  - inversion Hc as [| ? ? Hx Hc']; subst. inversion Hc' as [| ? ? Hy Hv]; subst.
    cbn [fold_left].
    assert (Hm : comparable (fmin x y)) by (unfold fmin; now destruct (flt y x)).
    destruct (IH (fmin x y) (Forall_cons _ Hm Hv)) as [Hin Hle].
    set (r := fold_left fmin v (fmin x y)) in *.
    assert (Hr : comparable r).
    { destruct Hin as [<- | Hin]; [exact Hm |].
      rewrite Forall_forall in Hv. now apply Hv. }
    pose proof (Hle _ (or_introl eq_refl)) as Hmr.
    split.
    + destruct Hin as [Hin | Hin]; [| right; now right].
      unfold fmin in Hin. destruct (flt y x); [right; now left | now left].
    + assert (Hxy : flt x r = false /\ flt y r = false).
      { unfold fmin in Hmr. destruct (flt y x) eqn:E.
        - split; [| exact Hmr].
          destruct (flt x r) eqn:E'; [| reflexivity].
          now rewrite (flt_trans _ _ _ E E') in Hmr.
        - split; [exact Hmr |].
          destruct (flt y r) eqn:E'; [| reflexivity].
          destruct (flt x y) eqn:E''.
          + now rewrite (flt_trans _ _ _ E'' E') in Hmr.
          + rewrite (flt_total x y Hx Hy E'' E) in Hmr. congruence. }
      intros z [<- | [<- | Hz]]; [apply Hxy | apply Hxy |].
      apply Hle. now right.
Qed.

Lemma fold_fmax_greatest (v : list float) (x : float) :
  Forall comparable (x :: v) ->
  In (fold_left fmax v x) (x :: v)
  /\ forall y, In y (x :: v) -> flt (fold_left fmax v x) y = false.
Proof.
  revert x. induction v as [| y v IH]; intros x Hc.
  - split; [now left |]. intros y [<- | []]. apply flt_irrefl.
  - inversion Hc as [| ? ? Hx Hc']; subst. inversion Hc' as [| ? ? Hy Hv]; subst.
    cbn [fold_left].
    assert (Hm : comparable (fmax x y)) by (unfold fmax; now destruct (flt x y)).
    destruct (IH (fmax x y) (Forall_cons _ Hm Hv)) as [Hin Hle].
    set (r := fold_left fmax v (fmax x y)) in *.
    assert (Hr : comparable r).
    { destruct Hin as [<- | Hin]; [exact Hm |].
      rewrite Forall_forall in Hv. now apply Hv. }
    pose proof (Hle _ (or_introl eq_refl)) as Hmr.
    split.
    + destruct Hin as [Hin | Hin]; [| right; now right].
      unfold fmax in Hin. destruct (flt x y); [right; now left | now left].
    + assert (Hxy : flt r x = false /\ flt r y = false).
      { unfold fmax in Hmr. destruct (flt x y) eqn:E.
        - split; [| exact Hmr].
          destruct (flt r x) eqn:E'; [| reflexivity].
          now rewrite (flt_trans _ _ _ E' E) in Hmr.
        - split; [exact Hmr |].
          destruct (flt r y) eqn:E'; [| reflexivity].
          destruct (flt y x) eqn:E''.
          + now rewrite (flt_trans _ _ _ E' E'') in Hmr.
          + rewrite (flt_total x y Hx Hy E E'') in Hmr. congruence. }
      intros z [<- | [<- | Hz]]; [apply Hxy | apply Hxy |].
      apply Hle. now right.
Qed.

Lemma notna_Permutation (l l' : list float) :
  Permutation l l' -> Permutation (notna l) (notna l').
Proof. apply filter_Permutation. Qed.

(** The minimum and the maximum of a column do not depend on the order of
    its values, when these are comparable or missing. *)
Lemma series_min_Permutation (l l' : list float) :
  Forall comparable (notna l) -> Permutation l l' -> series_min l' = series_min l.
Proof.
  intros Hc Hp. apply notna_Permutation in Hp. unfold series_min.
  destruct (notna l) as [| x v] eqn:E.
  - now rewrite (Permutation_nil Hp).
  - destruct (notna l') as [| x' v'] eqn:E'.
    + apply Permutation_sym, Permutation_nil in Hp. discriminate Hp.
    + assert (Hc' : Forall comparable (x' :: v')).
      { rewrite Forall_forall in *. intros y Hy. apply Hc.
        eapply Permutation_in; [apply Permutation_sym; exact Hp | exact Hy]. }
      destruct (fold_fmin_least v x Hc) as [Hin Hle].
      destruct (fold_fmin_least v' x' Hc') as [Hin' Hle'].
      rewrite Forall_forall in Hc, Hc'.
      apply flt_total; auto.
      * apply Hle. eapply Permutation_in; [apply Permutation_sym; exact Hp | exact Hin'].
      * apply Hle'. eapply Permutation_in; [exact Hp | exact Hin].
Qed.

Lemma series_max_Permutation (l l' : list float) :
  Forall comparable (notna l) -> Permutation l l' -> series_max l' = series_max l.
Proof.
  intros Hc Hp. apply notna_Permutation in Hp. unfold series_max.
  destruct (notna l) as [| x v] eqn:E.
  - now rewrite (Permutation_nil Hp).
  - destruct (notna l') as [| x' v'] eqn:E'.
    + apply Permutation_sym, Permutation_nil in Hp. discriminate Hp.
    + assert (Hc' : Forall comparable (x' :: v')).
      { rewrite Forall_forall in *. intros y Hy. apply Hc.
        eapply Permutation_in; [apply Permutation_sym; exact Hp | exact Hy]. }
      destruct (fold_fmax_greatest v x Hc) as [Hin Hle].
      destruct (fold_fmax_greatest v' x' Hc') as [Hin' Hle'].
      rewrite Forall_forall in Hc, Hc'.
      apply flt_total; auto.
      * apply Hle'. eapply Permutation_in; [exact Hp | exact Hin].
      * apply Hle. eapply Permutation_in; [apply Permutation_sym; exact Hp | exact Hin'].
Qed.

(** *** The text of an entry *)

Lemma min_max_part_append (a b : string) :
  count_char "[" a = 0 -> min_max_part (String.append a b) = min_max_part b.
Proof.
  induction a as [| x a IH]; cbn [String.append min_max_part count_char];
    [reflexivity |].
  destruct (Ascii.eqb x "["); [discriminate | exact IH].
Qed.

Lemma string_of_uint_no_bracket (d : Decimal.uint) :
  count_char "[" (NilEmpty.string_of_uint d) = 0.
Proof.
  induction d; cbn [NilEmpty.string_of_uint count_char]; try reflexivity;
    exact IHd.
Qed.

Lemma str_Z_no_bracket (z : Z) : count_char "[" (str_Z z) = 0.
Proof.
  unfold str_Z, NilZero.string_of_int, NilZero.string_of_uint.
  destruct (Z.to_int z) as [d | d]; destruct d;
    try reflexivity; try apply string_of_uint_no_bracket;
    cbn [count_char]; apply (string_of_uint_no_bracket (_ d)).
Qed.

Lemma format_2f_no_bracket (x : float) : count_char "[" (format_2f x) = 0.
Proof.
  destruct x as [s | s | | s m e]; try (destruct s; reflexivity); try reflexivity.
  unfold format_2f, two_digits.
  rewrite !fstr_cons, !count_char_append, str_Z_no_bracket.
  destruct (hundredths m e mod 100 <? 10)%Z;
    rewrite ?fstr_cons, ?count_char_append, str_Z_no_bracket;
    destruct s; reflexivity.
Qed.

Lemma min_max_part_format_stats (mean std min_ max_ : float) :
  min_max_part (format_stats (mean, std, min_, max_))
  = fstr ["["; format_2f min_; ", "; format_2f max_; "]"].
Proof.
  unfold format_stats.
  rewrite fstr_cons, min_max_part_append by apply format_2f_no_bracket.
  rewrite fstr_cons. cbn [String.append min_max_part Ascii.eqb Bool.eqb].
  rewrite fstr_cons, min_max_part_append by apply format_2f_no_bracket.
  reflexivity.
Qed.

(** *** Columns of a permuted table *)

Lemma map_result_Permutation {A B : Type} (f : A -> result B) (l l' : list A) :
  Permutation l l' ->
  forall ys, map_result f l = Ok ys ->
    exists ys', map_result f l' = Ok ys' /\ Permutation ys ys'.
Proof.
  induction 1 as [| x l l' _ IH | x y l | l l' l'' _ IH1 _ IH2]; intros ys H.
  - exists ys. split; [exact H | apply Permutation_refl].
  - cbn [map_result] in *. destruct (f x) as [b |]; cbn [bind] in *; [| discriminate].
    destruct (map_result f l) as [bs |]; cbn [bind] in *; [| discriminate].
    destruct (IH bs eq_refl) as [bs' [-> Hp]]. cbn [bind].
    inversion H; subst. exists (b :: bs'). split; [reflexivity | now constructor].
  - cbn [map_result] in *. destruct (f y) as [b |]; cbn [bind] in *; [| discriminate].
    destruct (f x) as [c |]; cbn [bind] in *; [| discriminate].
    destruct (map_result f l) as [bs |]; cbn [bind] in *; [| discriminate].
    inversion H; subst. exists (c :: b :: bs). split; [reflexivity | apply perm_swap].
  - destruct (IH1 ys H) as [ys' [H1 Hp1]]. destruct (IH2 ys' H1) as [ys'' [H2 Hp2]].
    exists ys''. split; [exact H2 | now transitivity ys'].
Qed.

Lemma astype_float_comparable (fot : string -> result float) (cells : list cell) :
  Forall integer_or_missing cells ->
  forall fl, astype_float fot cells = Ok fl -> Forall comparable (notna fl).
Proof.
  unfold astype_float. induction 1 as [| a cells Ha _ IH]; intros fl H.
  - inversion H. constructor.
  - cbn [map_result] in H.
    destruct (cell_to_float fot a) as [b |] eqn:Eb; cbn [bind] in H; [| discriminate].
    destruct (map_result (cell_to_float fot) cells) as [bs |]; cbn [bind] in H;
      [| discriminate].
    inversion H; subst. unfold notna. cbn [filter].
    destruct (is_nan b) eqn:En; cbn [negb]; [now apply IH |].
    constructor; [| now apply IH].
    destruct a as [| t | z]; cbn [cell_to_float integer_or_missing] in *.
    + inversion Eb; subst. discriminate En.
    + contradiction.
    + now apply (py_float_of_int_comparable z).
Qed.

(** The entry of a column whose cells are permuted: it is computed if it was,
    and shows the same minimum and the same maximum. *)
Lemma num_all_entry_Permutation (fot : string -> result float) (d d' : DataFrame)
  (col : string) :
  Forall integer_or_missing (column d col) ->
  Permutation (column d col) (column d' col) ->
  (exists y, num_all_entry fot d col = Ok y) ->
  (exists y', num_all_entry fot d' col = Ok y')
  /\ min_max_part (value (num_all_entry fot d' col))
     = min_max_part (value (num_all_entry fot d col)).
Proof.
  intros Hi Hp [y Hy]. unfold num_all_entry, get_numerical_column_stats in *.
  destruct (astype_float fot (column d col)) as [fl |] eqn:E; cbn [bind] in *;
    [| discriminate].
  destruct (map_result_Permutation _ _ _ Hp fl E) as [fl' [E' Hfl]].
  unfold astype_float at 1 2. rewrite E'. cbn [bind value].
  pose proof (astype_float_comparable fot _ Hi fl E) as Hc.
  split; [eexists; reflexivity |].
  rewrite !min_max_part_format_stats.
  now rewrite (series_min_Permutation fl fl' Hc Hfl),
    (series_max_Permutation fl fl' Hc Hfl).
Qed.

Lemma df_group_column_Permutation (df df' : DataFrame) (g col : string) (gv : cell) :
  columns df' = columns df ->
  Permutation (rows df) (rows df') ->
  Permutation (column (df_group df g gv) col) (column (df_group df' g gv) col).
Proof.
  intros Hc Hp. unfold column, df_group, select_rows, cell_at. cbn [columns rows].
  rewrite Hc. apply Permutation_map. now apply filter_Permutation.
Qed.

Lemma df_group_column_integers (df : DataFrame) (g col : string) (gv : cell) :
  Forall integer_or_missing (column df col) ->
  Forall integer_or_missing (column (df_group df g gv) col).
Proof.
  unfold column, df_group, select_rows, cell_at. cbn [columns rows].
  rewrite !Forall_forall. intros H a Ha.
  apply in_map_iff in Ha. destruct Ha as [r [<- Hr]].
  apply filter_In in Hr. apply H. apply in_map_iff. exists r. tauto.
Qed.

(** *** The summaries of a table and of the table with its rows permuted *)

(** Exchanging the two rows of a table exchanges its group columns; and on
    three integers near 2^53, where the sum of the first two is rounded or
    not according to their order, the mean and the standard deviation change
    with the order of the rows, the minimum and the maximum staying. *)
Lemma numerical_permutation_counterexample :
  Permutation (rows two_rows_table) (rows two_rows_swapped)
  /\ get_numerical_var_analysis no_text two_rows_table (Some "Sex")
     = Ok [(VAR_NAME, ["Age"]);
           (ALL, ["15.00 (7.07) [10.00, 20.00]"]);
           ("Sex M", ["10.00 (nan) [10.00, 10.00]"]);
           ("Sex F", ["20.00 (nan) [20.00, 20.00]"])]
  /\ get_numerical_var_analysis no_text two_rows_swapped (Some "Sex")
     = Ok [(VAR_NAME, ["Age"]);
           (ALL, ["15.00 (7.07) [10.00, 20.00]"]);
           ("Sex F", ["20.00 (nan) [20.00, 20.00]"]);
           ("Sex M", ["10.00 (nan) [10.00, 10.00]"])]
  /\ get_numerical_var_analysis no_text two_rows_swapped (Some "Sex")
     <> get_numerical_var_analysis no_text two_rows_table (Some "Sex")
  /\ Permutation (rows large_values_table) (rows large_values_permuted)
  /\ integer_columns large_values_table None
  /\ get_numerical_var_analysis no_text large_values_table None
     = Ok [(VAR_NAME, ["Ticks"]);
           (ALL, ["9007199254740994.00 (1.41) [9007199254740992.00, 9007199254740994.00]"])]
  /\ get_numerical_var_analysis no_text large_values_permuted None
     = Ok [(VAR_NAME, ["Ticks"]);
           (ALL, ["9007199254740992.00 (2.00) [9007199254740992.00, 9007199254740994.00]"])].
Proof.
  split; [apply perm_swap |].
  split; [vm_compute; reflexivity |].
  split; [vm_compute; reflexivity |].
  split; [vm_compute; discriminate |].
  split.
  { apply Permutation_sym.
    apply (perm_trans (perm_swap _ _ _)). apply perm_skip. apply perm_swap. }
  split.
  { intros col [<- | []]. repeat constructor. }
  split; vm_compute; reflexivity.
Qed.

(** C9 (amended).  Let the analysed columns of a table hold integers and
    missing values, let the keys of the results dictionary be pairwise
    distinct, and let the numerical analysis of the table return a summary.
    Then the numerical analysis of the table with its rows permuted returns a
    summary as well.  Both summaries have the keys "Variable Name" and "All"
    first, then one key per group value in the order in which the values
    first appear in the table analysed, so the group columns may come in
    another order; the keys are the same up to their order and the "Variable
    Name" column is the same.  Under every key the entries of the two
    summaries agree from their bracket on: the minimum and the maximum of
    every column, over the whole table and within every group, do not depend
    on the order of the rows.  Nothing is said of the mean and of the
    standard deviation, which are computed from sums of floats. *)
Theorem numerical_analysis_row_permutation (float_of_text : string -> result float)
  (df df' : DataFrame) (group : option string) (s : dict) :
  columns df' = columns df ->
  Permutation (rows df) (rows df') ->
  distinct_keys df group ->
  integer_columns df group ->
  get_numerical_var_analysis float_of_text df group = Ok s ->
  exists s',
    get_numerical_var_analysis float_of_text df' group = Ok s'
    /\ keys s = results_keys df group
    /\ keys s' = results_keys df' group
    /\ Permutation (keys s) (keys s')
    /\ dict_get VAR_NAME s' = dict_get VAR_NAME s
    /\ (forall key entries,
          In (key, entries) s ->
          exists entries',
            In (key, entries') s'
            /\ map min_max_part entries' = map min_max_part entries).
Proof.
  intros Hc Hp Hk Hi Hr.
  unfold get_numerical_var_analysis in Hr.
  destruct (numerical_results float_of_text df group) as [d |] eqn:Hd;
    cbn [bind] in Hr; [| discriminate].
  apply conversion_inv in Hr. subst s.
  destruct group as [g |].
  - (* with a grouping column *)
    pose proof (unique_Permutation _ _ (column_same_header df df' g Hc Hp)) as Hg.
    assert (Hk' : distinct_keys df' (Some g)).
    { cbn [distinct_keys] in *. eapply Permutation_NoDup; [| exact Hk].
      do 2 apply perm_skip. now apply Permutation_map. }
    rewrite (numerical_results_group float_of_text df g Hk) in Hd.
    assert (Hget : getitem df' g = (_ <- getitem df g ;; Ok (column df' g))).
    { unfold getitem. rewrite Hc. now destruct (index_of g (columns df)). }
    destruct (getitem df g) as [gc |] eqn:Hgc; cbn [bind] in Hd, Hget;
      [| discriminate].
    destruct (map_result _ (analysis_cols df (Some g))) as [ys |] eqn:Hys;
      cbn [bind] in Hd; [| discriminate].
    inversion Hd; subst d; clear Hd.
    assert (Hcols : analysis_cols df' (Some g) = analysis_cols df (Some g))
      by (unfold analysis_cols; now rewrite Hc).
    pose proof (row_check_Ok_inv _ _ _ _ _ Hys) as Hok.
    assert (Hall : forall col, In col (analysis_cols df (Some g)) ->
              (exists y', num_all_entry float_of_text df' col = Ok y')
              /\ min_max_part (value (num_all_entry float_of_text df' col))
                 = min_max_part (value (num_all_entry float_of_text df col))).
    { intros col Hin. apply num_all_entry_Permutation.
      - now apply Hi.
      - now apply column_same_header.
      - apply (Hok col Hin). }
    assert (Hgrp : forall col gv, In col (analysis_cols df (Some g)) ->
              In gv (unique (column df g)) ->
              (exists y', num_group_entry float_of_text df' g col gv = Ok y')
              /\ min_max_part (value (num_group_entry float_of_text df' g col gv))
                 = min_max_part (value (num_group_entry float_of_text df g col gv))).
    { intros col gv Hin Hgv. unfold num_group_entry.
      apply num_all_entry_Permutation.
      - apply df_group_column_integers. now apply Hi.
      - now apply df_group_column_Permutation.
      - apply (Hok col Hin). exact Hgv. }
    destruct (row_check_Ok (unique (column df' g)) (num_all_entry float_of_text df')
                (num_group_entry float_of_text df' g) (analysis_cols df (Some g)))
      as [ys' Hys'].
    { intros col Hin. split; [apply (Hall col Hin) |].
      intros gv Hgv. apply (Hgrp col gv Hin).
      eapply Permutation_in; [apply Permutation_sym; exact Hg | exact Hgv]. }
    eexists. split; [| split; [| split; [| split; [| split]]]].
    + unfold get_numerical_var_analysis.
      rewrite (numerical_results_group float_of_text df' g Hk'), Hget. cbn [bind].
      rewrite Hcols, Hys'. cbn [bind].
      apply aligned_conversion with (n := List.length (analysis_cols df (Some g))).
      apply results_shape_aligned; intros; try reflexivity; now rewrite length_map.
    + apply results_shape_keys.
    + apply results_shape_keys.
    + rewrite !results_shape_keys. do 2 apply perm_skip. now apply Permutation_map.
    + reflexivity.
    + intros key entries Hin. unfold results_shape in Hin |- *.
      destruct Hin as [E | [E | Hin]].
      * inversion E; subst. eexists. split; [left; reflexivity | reflexivity].
      * inversion E; subst. eexists. split; [right; left; reflexivity |].
        rewrite !map_map. apply map_ext_in. intros col Hcol. apply (Hall col Hcol).
      * apply in_map_iff in Hin. destruct Hin as [gv [E Hgv]].
        inversion E; subst. eexists. split.
        -- right. right. apply in_map_iff. exists gv. split; [reflexivity |].
           eapply Permutation_in; [exact Hg | exact Hgv].
        -- rewrite !map_map. apply map_ext_in. intros col Hcol.
           apply (Hgrp col gv Hcol Hgv).
  - (* without a grouping column *)
    rewrite numerical_results_no_group in Hd.
    destruct (map_result _ (columns df)) as [ys |] eqn:Hys; cbn [bind] in Hd;
      [| discriminate].
    inversion Hd; subst d; clear Hd.
    pose proof (row_check_Ok_inv _ _ _ _ _ Hys) as Hok.
    assert (Hall : forall col, In col (columns df) ->
              (exists y', num_all_entry float_of_text df' col = Ok y')
              /\ min_max_part (value (num_all_entry float_of_text df' col))
                 = min_max_part (value (num_all_entry float_of_text df col))).
    { intros col Hin. apply num_all_entry_Permutation.
      - now apply Hi.
      - now apply column_same_header.
      - apply (Hok col Hin). }
    destruct (row_check_Ok [] (num_all_entry float_of_text df')
                (fun _ _ => Ok "") (columns df)) as [ys' Hys'].
    { intros col Hin. split; [apply (Hall col Hin) | intros gv []]. }
    eexists. split; [| split; [| split; [| split; [| split]]]].
    + unfold get_numerical_var_analysis.
      rewrite numerical_results_no_group, Hc, Hys'. cbn [bind].
      apply aligned_conversion with (n := List.length (columns df)).
      repeat constructor; cbn [snd]; now rewrite ?length_map.
    + reflexivity.
    + reflexivity.
    + apply Permutation_refl.
    + reflexivity.
    + intros key entries [E | [E | []]].
      * inversion E; subst. eexists. split; [left; reflexivity | reflexivity].
      * inversion E; subst. eexists. split; [right; left; reflexivity |].
        rewrite !map_map. apply map_ext_in. intros col Hcol. apply (Hall col Hcol).
Qed.

Lemma numerical_analysis_row_permutation_witness :
  exists s',
    get_numerical_var_analysis no_text age_sex_rotated (Some "Sex") = Ok s'
    /\ keys s' = results_keys age_sex_rotated (Some "Sex")
    /\ (forall key entries,
          In (key, entries)
             [(VAR_NAME, ["Age"]);
              (ALL, ["20.00 (10.00) [10.00, 30.00]"]);
              ("Sex M", ["20.00 (14.14) [10.00, 30.00]"]);
              ("Sex F", ["20.00 (nan) [20.00, 20.00]"])] ->
          exists entries',
            In (key, entries') s'
            /\ map min_max_part entries' = map min_max_part entries).
Proof.
  assert (P : Permutation (rows age_sex_table) (rows age_sex_rotated)).
  { apply (perm_trans (perm_swap _ _ _)). apply perm_skip. apply perm_swap. }
  assert (K : distinct_keys age_sex_table (Some "Sex")).
  { unfold distinct_keys.
    change (unique (column age_sex_table "Sex")) with [Str "M"; Str "F"].
    repeat constructor; simpl; intuition discriminate. }
  assert (N : integer_columns age_sex_table (Some "Sex")).
  { intros col [<- | []]. repeat constructor. }
  destruct (numerical_analysis_row_permutation no_text age_sex_table
              age_sex_rotated (Some "Sex")
              [(VAR_NAME, ["Age"]);
               (ALL, ["20.00 (10.00) [10.00, 30.00]"]);
               ("Sex M", ["20.00 (14.14) [10.00, 30.00]"]);
               ("Sex F", ["20.00 (nan) [20.00, 20.00]"])]
              eq_refl P K N)
    as [s' [H1 [_ [H2 [_ [_ H3]]]]]].
  - vm_compute. reflexivity.
  - exists s'. split; [exact H1 |]. split; [exact H2 | exact H3].
Defined.

(** * Further properties of the statistics engine *)

(** ** The grouping column *)

Lemma index_of_None (col : string) (cols : list string) :
  index_of col cols = None <-> ~ In col cols.
Proof.
  induction cols as [| c cols IH]; simpl; [tauto |].
  destruct (String.eqb c col) eqn:E.
  - apply String.eqb_eq in E. subst. split; [discriminate |].
    intro H. exfalso. apply H. now left.
  - apply String.eqb_neq in E.
    destruct (index_of col cols) eqn:E2; simpl.
    + split; [discriminate |]. intro H. exfalso.
      assert (Hn : ~ In col cols) by tauto.
      apply IH in Hn. discriminate.
    + split; [| reflexivity]. intros _ [H | H]; [congruence |].
      now apply (proj1 IH eq_refl).
Qed.

Lemma getitem_missing (df : DataFrame) (col : string) :
  ~ In col (columns df) -> getitem df col = Raise (KeyError col).
Proof.
  intro H. unfold getitem. now rewrite (proj2 (index_of_None col (columns df)) H).
Qed.

Lemma getitem_present (df : DataFrame) (col : string) :
  In col (columns df) -> getitem df col = Ok (column df col).
Proof.
  intro H. unfold getitem.
  destruct (index_of col (columns df)) eqn:E; [reflexivity |].
  now apply index_of_None in E.
Qed.

(** A grouping column that the table does not have stops both analyses with
    a [KeyError] on its name, before any statistic is computed. *)
Theorem unknown_group_raises_KeyError (float_of_text : string -> result float)
  (df : DataFrame) (g : string) :
  ~ In g (columns df) ->
  get_categorical_var_analysis df (Some g) = Raise (KeyError g)
  /\ get_numerical_var_analysis float_of_text df (Some g) = Raise (KeyError g).
Proof.
  intro H.
  unfold get_categorical_var_analysis, categorical_results,
    get_numerical_var_analysis, numerical_results, _initialize_results_dict.
  now rewrite (getitem_missing df g H).
Qed.

Lemma unknown_group_raises_KeyError_witness :
  get_categorical_var_analysis survey_table (Some "Age") = Raise (KeyError "Age")
  /\ get_numerical_var_analysis no_text survey_table (Some "Age")
     = Raise (KeyError "Age").
Proof.
  apply (unknown_group_raises_KeyError no_text survey_table "Age").
  simpl. intuition discriminate.
Defined.

Lemma dict_setitem_keys (k k' : string) (v : list string) (d : dict) :
  In k' (keys (dict_setitem k v d)) <-> k' = k \/ In k' (keys d).
Proof.
  induction d as [| [k0 v0] d IH]; simpl.
  - intuition congruence.
  - destruct (String.eqb k0 k) eqn:E; simpl.
    + apply String.eqb_eq in E. subst. intuition congruence.
    + rewrite IH. intuition congruence.
Qed.

Lemma dict_setitem_empty (k : string) (d : dict) :
  Forall (fun kv : string * list string => snd kv = []) d ->
  Forall (fun kv : string * list string => snd kv = []) (dict_setitem k [] d).
Proof.
  induction d as [| [k0 v0] d IH]; simpl; intro H.
  - now repeat constructor.
  - inversion H; subst.
    destruct (String.eqb k0 k); constructor; auto.
Qed.

Lemma initial_dict_spec (key : cell -> string) (gvs : list cell) (d : dict) :
  Forall (fun kv : string * list string => snd kv = []) d ->
  Forall (fun kv : string * list string => snd kv = [])
         (fold_left (fun res gv => dict_setitem (key gv) [] res) gvs d)
  /\ forall k, In k (keys (fold_left (fun res gv => dict_setitem (key gv) [] res) gvs d))
               <-> In k (keys d) \/ exists gv, In gv gvs /\ k = key gv.
Proof.
  revert d. induction gvs as [| a gvs IH]; intros d Hd; simpl.
  - split; [exact Hd |]. intro k. split; [tauto |].
    intros [H | [gv [[] _]]]. exact H.
  - destruct (IH (dict_setitem (key a) [] d) (dict_setitem_empty _ _ Hd)) as [H1 H2].
    split; [exact H1 |]. intro k. rewrite H2, dict_setitem_keys. split.
    + intros [[-> | H] | [gv [Hgv ->]]].
      * right. exists a. tauto.
      * now left.
      * right. exists gv. tauto.
    + intros [H | [gv [[<- | Hgv] ->]]].
      * left. now right.
      * left. now left.
      * right. now exists gv.
Qed.

(** [_initialize_results_dict] with a grouping column the table has: the
    group values are the distinct values of the column, each once, in order
    of first appearance (a missing value counting as a value); the dictionary
    holds an empty list under "Variable Name", under "All" and under the key
    of every group value, and has no other key. *)
Theorem initialize_results_dict_group (df : DataFrame) (g : string)
  (results : dict) (group_values : list cell) :
  _initialize_results_dict df (Some g) = Ok (results, group_values) ->
  In g (columns df)
  /\ NoDup group_values
  /\ (forall v, In v group_values <-> In v (column df g))
  /\ first_seen (column df g) group_values
  /\ Forall (fun kv : string * list string => snd kv = []) results
  /\ (forall k, In k (keys results)
                <-> k = VAR_NAME \/ k = ALL
                    \/ exists gv, In gv group_values /\ k = group_key g gv).
Proof.
  intro H. unfold _initialize_results_dict, getitem in H.
  destruct (index_of g (columns df)) eqn:E; simpl in H; [| discriminate].
  inversion H; subst; clear H.
  split.
  { destruct (in_dec string_dec g (columns df)) as [Hin | Hn]; [exact Hin |].
    apply index_of_None in Hn. congruence. }
  split; [apply unique_NoDup |].
  split; [intro v; apply unique_In |].
  split; [apply unique_first_seen |].
  destruct (initial_dict_spec (group_key g) (unique (column df g))
              [(VAR_NAME, []); (ALL, [])]) as [H1 H2].
  { now repeat constructor. }
  split; [exact H1 |].
  intro k. rewrite H2. simpl. intuition.
Qed.

Lemma initialize_results_dict_group_witness :
  In "Sex" (columns missing_group_table)
  /\ NoDup [Str "M"; NA]
  /\ (forall v, In v [Str "M"; NA] <-> In v (column missing_group_table "Sex"))
  /\ first_seen (column missing_group_table "Sex") [Str "M"; NA]
  /\ Forall (fun kv : string * list string => snd kv = [])
            [(VAR_NAME, []); (ALL, []); ("Sex M", []); ("Sex nan", [])]
  /\ (forall k, In k (keys [(VAR_NAME, []); (ALL, []); ("Sex M", []); ("Sex nan", [])])
                <-> k = VAR_NAME \/ k = ALL
                    \/ exists gv, In gv [Str "M"; NA] /\ k = group_key "Sex" gv).
Proof.
  apply (initialize_results_dict_group missing_group_table "Sex").
  reflexivity.
Defined.

(** ** Counts of the categorical analysis *)

Lemma eq_cell_notna (c k : cell) : eq_cell c k = negb (isna c) && eq_cell c k.
Proof. destruct c; reflexivity. Qed.

Lemma filter_map_length {A B : Type} (q : B -> bool) (f : A -> B) (l : list A) :
  List.length (filter q (map f l)) = List.length (filter (fun x => q (f x)) l).
Proof.
  induction l as [| a l IH]; simpl; [reflexivity |].
  destruct (q (f a)); simpl; now rewrite IH.
Qed.

Lemma filter_negb_length {A : Type} (f : A -> bool) (l : list A) :
  List.length (filter (fun x => negb (f x)) l)
  = List.length l - List.length (filter f l).
Proof.
  induction l as [| a l IH]; [reflexivity |].
  pose proof (filter_length_le f l).
  cbn [filter List.length].
  destruct (f a); cbn [negb List.length]; rewrite IH; lia.
Qed.

Lemma list_sum_map_In {A : Type} (f : A -> nat) (l : list A) (x : A) :
  In x l -> f x <= list_sum (map f l).
Proof.
  induction l as [| a l IH]; simpl; [tauto |].
  intros [-> | H]; [lia |]. specialize (IH H). lia.
Qed.

Lemma counts_by_category (df : DataFrame) (col : string) (p : row -> bool) :
  list_sum (map (fun k => List.length
                            (filter (fun r => p r && eq_cell (cell_at df col r) k)
                                    (rows df)))
                (categories df col))
  = List.length (filter (fun r => p r && negb (isna (cell_at df col r))) (rows df)).
Proof.
  pose proof (rows_split_by_group (cell_at df col) p (categories df col)
                (filter (fun r => negb (isna (cell_at df col r))) (rows df))
                (unique_NoDup _)) as H.
  rewrite filter_filter_and in H.
  rewrite (filter_ext (fun r => negb (isna (cell_at df col r)) && p r)
                      (fun r => p r && negb (isna (cell_at df col r)))) in H
    by (intro r; apply andb_comm).
  rewrite <- H.
  - f_equal. apply map_ext. intro k. rewrite filter_filter_and. f_equal.
    apply filter_ext. intro r.
    rewrite (eq_cell_notna (cell_at df col r) k).
    destruct (isna (cell_at df col r)), (p r), (eq_cell (cell_at df col r) k);
      reflexivity.
  - intros r Hr. apply filter_In in Hr. destruct Hr as [Hr Hna].
    assert (Hne : cell_at df col r <> NA)
      by (destruct (cell_at df col r); [discriminate | congruence | congruence]).
    split; [| exact Hne].
    apply categories_In. split; [| exact Hne].
    unfold column. now apply in_map.
Qed.

(** The counts reported under "All" for the categories of a column add up to
    the number of non-missing cells of the column, the total the percentages
    are taken of; every category has a count of at least one, so that total
    is never zero when there is a row to report. *)
Theorem category_counts_partition (df : DataFrame) (col : string) :
  list_sum (map (category_total df col) (categories df col)) = total df col
  /\ forall v, In v (categories df col) ->
               1 <= category_total df col v <= total df col.
Proof.
  assert (E : list_sum (map (category_total df col) (categories df col))
              = total df col).
  { pose proof (counts_by_category df col (fun _ => true)) as H.
    cbn [andb] in H.
    unfold category_total, shape0, select_rows, total, isna_sum, column.
    cbn [rows]. rewrite H, filter_negb_length, filter_map_length. reflexivity. }
  split; [exact E |].
  intros v Hv. split.
  - apply categories_In in Hv. destruct Hv as [Hin Hne].
    rewrite category_total_rows_with by assumption.
    unfold rows_with. now apply count_occ_In.
  - rewrite <- E. now apply (list_sum_map_In (category_total df col)).
Qed.

(** Within a group, the counts of the categories of a column add up to the
    number of non-missing cells of the column in the rows of the group, the
    total the percentages of the group are taken of. *)
Theorem sub_category_counts_partition (df : DataFrame) (g : string)
  (group_val : cell) (col : string) :
  list_sum (map (sub_category_total df g group_val col) (categories df col))
  = group_total df g group_val col.
Proof.
  pose proof (counts_by_category df col
                (fun r => eq_cell (cell_at df g r) group_val)) as H.
  unfold sub_category_total, group_total, shape0, select_rows, dropna, column.
  cbn [rows]. rewrite H, filter_map_length, filter_filter_and. reflexivity.
Qed.

(** ** The categorical analysis with a group *)

Lemma map_result_cases {A B : Type} (f : A -> result B) (l : list A) :
  (exists ys, map_result f l = Ok ys /\ forall x, In x l -> exists y, f x = Ok y)
  \/ (exists e x, map_result f l = Raise e /\ In x l /\ f x = Raise e).
Proof.
  induction l as [| a l IH]; simpl.
  - left. exists []. split; [reflexivity | tauto].
  - destruct (f a) as [b |] eqn:E; simpl.
    + destruct IH as [[ys [H1 H2]] | [e [x [H1 [H2 H3]]]]].
      * left. rewrite H1. simpl. exists (b :: ys). split; [reflexivity |].
        intros x [<- | Hx]; [now exists b | now apply H2].
      * right. rewrite H1. simpl. exists e, x. tauto.
    + right. exists e, a. tauto.
Qed.

Lemma cat_group_entry_Ok (df : DataFrame) (g : string) (p : string * cell)
  (gv : cell) (x : string) :
  cat_group_entry df g p gv = Ok x ->
  group_total df g gv (fst p) <> 0 /\ x = pair_group_entry df g gv p.
Proof.
  unfold cat_group_entry, pair_group_entry, py_truediv, count_and_percent.
  destruct (group_total df g gv (fst p)) as [| n]; simpl; intro H;
    [discriminate |].
  inversion H. split; [discriminate | reflexivity].
Qed.

Lemma cat_group_entry_Raise (df : DataFrame) (g : string) (p : string * cell)
  (gv : cell) (e : exn) :
  cat_group_entry df g p gv = Raise e ->
  group_total df g gv (fst p) = 0 /\ e = ZeroDivisionError.
Proof.
  unfold cat_group_entry, py_truediv.
  destruct (group_total df g gv (fst p)) as [| n]; simpl; intro H;
    [| discriminate].
  inversion H. split; reflexivity.
Qed.

(** With a grouping column of the table and pairwise distinct keys, the
    categorical analysis has two outcomes.  It returns a summary when every
    group has a non-missing cell in every analysed column that has a
    category.  It stops on a division by zero when some group has none:
    the share of the category within that group is 0/0 on Python integers. *)
Theorem grouped_categorical_division_by_zero (df : DataFrame) (g : string) :
  In g (columns df) ->
  distinct_keys df (Some g) ->
  (exists s, get_categorical_var_analysis df (Some g) = Ok s
             /\ forall col gv,
                  In col (analysis_cols df (Some g)) ->
                  categories df col <> [] ->
                  In gv (unique (column df g)) ->
                  group_total df g gv col <> 0)
  \/ (get_categorical_var_analysis df (Some g) = Raise ZeroDivisionError
      /\ exists col gv,
           In col (analysis_cols df (Some g))
           /\ categories df col <> []
           /\ In gv (unique (column df g))
           /\ group_total df g gv col = 0).
Proof.
  intros Hg Hk. unfold get_categorical_var_analysis.
  rewrite (categorical_results_group df g Hk), (getitem_present df g Hg).
  cbn [bind].
  destruct (map_result_cases
              (row_check (unique (column df g)) (cat_all_entry df) (cat_group_entry df g))
              (category_pairs_of df (analysis_cols df (Some g))))
    as [[ys [H1 H2]] | [e [[col cat] [H1 [H2 H3]]]]].
  - left. rewrite H1. cbn [bind]. eexists. split.
    + apply aligned_conversion
        with (n := List.length (category_pairs_of df (analysis_cols df (Some g)))).
      apply results_shape_aligned; intros; now rewrite length_map.
    + intros col gv Hcol Hcat Hgv.
      destruct (categories df col) as [| cat cats] eqn:Ec; [congruence |].
      assert (Hin : In (col, cat) (category_pairs_of df (analysis_cols df (Some g)))).
      { apply category_pairs_of_In.
        assert (Hc : In cat (categories df col)) by (rewrite Ec; now left).
        apply categories_In in Hc. tauto. }
      destruct (row_check_Ok_inv _ _ _ _ _ H1 (col, cat) Hin) as [_ Hgrp].
      destruct (Hgrp gv Hgv) as [x Hx].
      now apply cat_group_entry_Ok in Hx.
  - right. rewrite H1. cbn [bind].
    unfold row_check in H3. simpl in H3.
    destruct (map_result_cases (cat_group_entry df g (col, cat)) (unique (column df g)))
      as [[xs [E _]] | [e' [gv [E [Hgv Hr]]]]]; rewrite E in H3; simpl in H3;
      [discriminate |].
    inversion H3; subst e'.
    apply cat_group_entry_Raise in Hr. destruct Hr as [Hz ->].
    split; [reflexivity |].
    exists col, gv. apply category_pairs_of_In in H2.
    destruct H2 as [Hcol [Hne Hin]].
    repeat split; try assumption.
    intro Hc. assert (Hcat : In cat (categories df col))
      by (apply categories_In; tauto).
    rewrite Hc in Hcat. contradiction.
Qed.

Lemma grouped_categorical_division_by_zero_witness :
  (exists s, get_categorical_var_analysis survey_table (Some "Sex") = Ok s
             /\ forall col gv,
                  In col (analysis_cols survey_table (Some "Sex")) ->
                  categories survey_table col <> [] ->
                  In gv (unique (column survey_table "Sex")) ->
                  group_total survey_table "Sex" gv col <> 0)
  \/ (get_categorical_var_analysis survey_table (Some "Sex") = Raise ZeroDivisionError
      /\ exists col gv,
           In col (analysis_cols survey_table (Some "Sex"))
           /\ categories survey_table col <> []
           /\ In gv (unique (column survey_table "Sex"))
           /\ group_total survey_table "Sex" gv col = 0).
Proof.
  apply (grouped_categorical_division_by_zero survey_table "Sex").
  - simpl. tauto.
  - unfold distinct_keys.
    change (unique (column survey_table "Sex")) with [Str "M"; Str "F"].
    repeat constructor; simpl; intuition discriminate.
Defined.

(** The summary the categorical analysis returns with a grouping column:
    one row per (column, category) pair of the columns other than the
    grouping column, labelled "column : category"; under "All" the count and
    share of the category in the column; under the key of each group value,
    in order of first appearance, the count and share within the group. *)
Theorem grouped_categorical_summary (df : DataFrame) (g : string) (s : dict) :
  distinct_keys df (Some g) ->
  get_categorical_var_analysis df (Some g) = Ok s ->
  s = (VAR_NAME, map pair_label (category_pairs_of df (analysis_cols df (Some g))))
      :: (ALL, map (pair_all_entry df)
                   (category_pairs_of df (analysis_cols df (Some g))))
      :: map (fun gv =>
                (group_key g gv,
                 map (pair_group_entry df g gv)
                     (category_pairs_of df (analysis_cols df (Some g)))))
             (unique (column df g)).
Proof.
  intros Hk Hs. unfold get_categorical_var_analysis in Hs.
  destruct (categorical_results df (Some g)) as [d |] eqn:Hd; cbn [bind] in Hs;
    [| discriminate].
  apply conversion_inv in Hs. subst s.
  rewrite (categorical_results_group df g Hk) in Hd.
  destruct (getitem df g); cbn [bind] in Hd; [| discriminate].
  destruct (map_result _ _) as [ys |] eqn:Hys; cbn [bind] in Hd; [| discriminate].
  inversion Hd; subst d; clear Hd.
  pose proof (row_check_Ok_inv _ _ _ _ _ Hys) as Hok.
  unfold results_shape. f_equal. f_equal.
  - f_equal. apply map_ext_in. intros [col v] Hin. apply cat_all_entry_spec.
    apply category_pairs_of_In in Hin. simpl. tauto.
  - apply map_ext_in. intros gv Hgv. f_equal.
    apply map_ext_in. intros p Hin.
    destruct (Hok p Hin) as [_ Hgrp]. destruct (Hgrp gv Hgv) as [x Hx].
    rewrite Hx. simpl. now apply cat_group_entry_Ok in Hx.
Qed.

Lemma grouped_categorical_summary_witness :
  [(VAR_NAME, ["Smoker : yes"; "Smoker : no"]);
   (ALL, ["3 (75.00%)"; "1 (25.00%)"]);
   ("Sex M", ["2 (100.00%)"; "0 (0.00%)"]);
   ("Sex F", ["1 (50.00%)"; "1 (50.00%)"])]
  = (VAR_NAME, map pair_label
                   (category_pairs_of survey_table (analysis_cols survey_table (Some "Sex"))))
    :: (ALL, map (pair_all_entry survey_table)
                 (category_pairs_of survey_table (analysis_cols survey_table (Some "Sex"))))
    :: map (fun gv =>
              (group_key "Sex" gv,
               map (pair_group_entry survey_table "Sex" gv)
                   (category_pairs_of survey_table
                      (analysis_cols survey_table (Some "Sex")))))
           (unique (column survey_table "Sex")).
Proof.
  apply (grouped_categorical_summary survey_table "Sex").
  - unfold distinct_keys.
    change (unique (column survey_table "Sex")) with [Str "M"; Str "F"].
    repeat constructor; simpl; intuition discriminate.
  - vm_compute. reflexivity.
Defined.

(** ** The numerical analysis *)

Lemma astype_float_Ok_iff (fot : string -> result float) (l : list cell) :
  (exists v, astype_float fot l = Ok v)
  <-> forall c, In c l -> exists x, cell_to_float fot c = Ok x.
Proof.
  unfold astype_float. split.
  - intros [v Hv]. now apply (map_result_Ok_inv _ _ _ Hv).
  - apply map_result_Ok.
Qed.

Lemma num_all_entry_Ok_iff (fot : string -> result float) (df : DataFrame)
  (col : string) :
  (exists y, num_all_entry fot df col = Ok y)
  <-> forall c, In c (column df col) -> exists x, cell_to_float fot c = Ok x.
Proof.
  rewrite <- astype_float_Ok_iff.
  unfold num_all_entry, get_numerical_column_stats.
  destruct (astype_float fot (column df col)) as [v |]; simpl; split.
  - intros _. now exists v.
  - intros _. eexists. reflexivity.
  - intros [y Hy]. discriminate.
  - intros [v Hv]. discriminate.
Qed.

Lemma column_select_rows_incl (df : DataFrame) (mask : row -> bool) (col : string)
  (c : cell) :
  In c (column (select_rows df mask) col) -> In c (column df col).
Proof.
  unfold column, select_rows, cell_at. simpl.
  rewrite !in_map_iff. intros [r [E Hr]]. exists r.
  apply filter_In in Hr. tauto.
Qed.

Lemma numerical_conversion (fot : string -> result float) (df : DataFrame)
  (group : option string) (s : dict) :
  distinct_keys df group ->
  (get_numerical_var_analysis fot df group = Ok s
   <-> numerical_results fot df group = Ok s).
Proof.
  intro Hk. unfold get_numerical_var_analysis. split.
  - destruct (numerical_results fot df group) as [d |]; cbn [bind]; intro H;
      [| discriminate].
    apply conversion_inv in H. now subst.
  - intro H. rewrite H. cbn [bind].
    destruct (numerical_results_aligned fot df group s Hk H) as [_ [n Hn]].
    now apply aligned_conversion with (n := n).
Qed.

(** With pairwise distinct keys and a grouping column of the table (or
    none), the numerical analysis returns a summary exactly when every cell
    of every analysed column converts to a float: a missing value and an
    integer within the range of floats do, a text does when Python's [float]
    accepts it.  The conversion of the cells is its only source of errors. *)
Theorem numerical_analysis_succeeds_iff (float_of_text : string -> result float)
  (df : DataFrame) (group : option string) :
  distinct_keys df group ->
  (forall g, group = Some g -> In g (columns df)) ->
  ((exists s, get_numerical_var_analysis float_of_text df group = Ok s)
   <-> forall col c, In col (analysis_cols df group) -> In c (column df col) ->
                     exists x, cell_to_float float_of_text c = Ok x).
Proof.
  intros Hk Hg. split.
  - intros [s Hs] col c Hcol Hc.
    apply (numerical_conversion float_of_text df group s Hk) in Hs.
    assert (Hall : exists y, num_all_entry float_of_text df col = Ok y).
    { destruct group as [g |].
      - rewrite (numerical_results_group float_of_text df g Hk) in Hs.
        destruct (getitem df g); cbn [bind] in Hs; [| discriminate].
        destruct (map_result _ _) as [ys |] eqn:Hys; cbn [bind] in Hs;
          [| discriminate].
        now destruct (row_check_Ok_inv _ _ _ _ _ Hys col Hcol).
      - rewrite numerical_results_no_group in Hs.
        destruct (map_result _ _) as [ys |] eqn:Hys; cbn [bind] in Hs;
          [| discriminate].
        now destruct (row_check_Ok_inv _ _ _ _ _ Hys col Hcol). }
    now apply (proj1 (num_all_entry_Ok_iff float_of_text df col) Hall).
  - intro Hcells.
    assert (Hall : forall col, In col (analysis_cols df group) ->
              exists y, num_all_entry float_of_text df col = Ok y).
    { intros col Hcol. apply num_all_entry_Ok_iff. intros c Hc.
      now apply (Hcells col c). }
    destruct group as [g |].
    + destruct (row_check_Ok (unique (column df g)) (num_all_entry float_of_text df)
                  (num_group_entry float_of_text df g) (analysis_cols df (Some g)))
        as [ys Hys].
      { intros col Hcol. split; [now apply Hall |].
        intros gv _. unfold num_group_entry. apply num_all_entry_Ok_iff.
        intros c Hc. apply (Hcells col c Hcol).
        unfold df_group in Hc. now apply column_select_rows_incl in Hc. }
      eexists. apply (numerical_conversion float_of_text df (Some g) _ Hk).
      rewrite (numerical_results_group float_of_text df g Hk).
      rewrite (getitem_present df g (Hg g eq_refl)). cbn [bind].
      rewrite Hys. reflexivity.
    + destruct (row_check_Ok [] (num_all_entry float_of_text df)
                  (fun _ _ => Ok "") (columns df)) as [ys Hys].
      { intros col Hcol. split; [now apply Hall |]. intros gv []. }
      eexists. apply (numerical_conversion float_of_text df None _ Hk).
      rewrite numerical_results_no_group, Hys. reflexivity.
Qed.

Lemma numerical_analysis_succeeds_iff_witness :
  (exists s, get_numerical_var_analysis no_text age_sex_table (Some "Sex") = Ok s)
  <-> forall col c, In col (analysis_cols age_sex_table (Some "Sex")) ->
                    In c (column age_sex_table col) ->
                    exists x, cell_to_float no_text c = Ok x.
Proof.
  apply (numerical_analysis_succeeds_iff no_text age_sex_table (Some "Sex")).
  - unfold distinct_keys.
    change (unique (column age_sex_table "Sex")) with [Str "M"; Str "F"].
    repeat constructor; simpl; intuition discriminate.
  - intros g E. inversion E. simpl. tauto.
Defined.

Lemma Forall2_map_r {A B : Type} (P : A -> B -> Prop) (f : A -> B) (l : list A) :
  (forall x, In x l -> P x (f x)) -> Forall2 P l (map f l).
Proof.
  induction l as [| a l IH]; intro H; simpl; constructor.
  - apply H. now left.
  - apply IH. intros. apply H. now right.
Qed.

Lemma num_all_entry_format (fot : string -> result float) (df : DataFrame)
  (col y : string) :
  num_all_entry fot df col = Ok y ->
  exists st, get_numerical_column_stats fot df col = Ok st /\ y = format_stats st.
Proof.
  unfold num_all_entry.
  destruct (get_numerical_column_stats fot df col) as [st |]; simpl; intro H;
    [| discriminate].
  inversion H. now exists st.
Qed.

(** The summary the numerical analysis returns: one row per column other
    than the grouping column, labelled by the column and in the order of the
    table; under "All" the formatted statistics of the column; then one
    column per group value, in order of first appearance, holding the
    formatted statistics of the column restricted to the rows of the
    group. *)
Theorem numerical_summary_layout (float_of_text : string -> result float)
  (df : DataFrame) (group : option string) (s : dict) :
  distinct_keys df group ->
  get_numerical_var_analysis float_of_text df group = Ok s ->
  exists (alls : list string) (groups : cell -> list string),
    s = (VAR_NAME, analysis_cols df group) :: (ALL, alls)
        :: match group with
           | None => []
           | Some g => map (fun gv => (group_key g gv, groups gv))
                           (unique (column df g))
           end
    /\ Forall2 (fun col y =>
                  exists st, get_numerical_column_stats float_of_text df col = Ok st
                             /\ y = format_stats st)
               (analysis_cols df group) alls
    /\ forall g gv, group = Some g -> In gv (unique (column df g)) ->
         Forall2 (fun col y =>
                    exists st,
                      get_numerical_column_stats float_of_text (df_group df g gv) col
                      = Ok st
                      /\ y = format_stats st)
                 (analysis_cols df group) (groups gv).
Proof.
  intros Hk Hs.
  apply (numerical_conversion float_of_text df group s Hk) in Hs.
  destruct group as [g |].
  - rewrite (numerical_results_group float_of_text df g Hk) in Hs.
    destruct (getitem df g); cbn [bind] in Hs; [| discriminate].
    destruct (map_result _ _) as [ys |] eqn:Hys; cbn [bind] in Hs; [| discriminate].
    inversion Hs; subst s; clear Hs.
    pose proof (row_check_Ok_inv _ _ _ _ _ Hys) as Hok.
    eexists. eexists. split; [reflexivity |]. split.
    + apply Forall2_map_r. intros col Hcol.
      destruct (Hok col Hcol) as [[y Hy] _]. rewrite Hy. simpl.
      now apply num_all_entry_format.
    + intros g' gv E Hgv. inversion E; subst g'.
      apply Forall2_map_r. intros col Hcol.
      destruct (Hok col Hcol) as [_ Hgrp]. destruct (Hgrp gv Hgv) as [y Hy].
      rewrite Hy. simpl. unfold num_group_entry in Hy.
      now apply num_all_entry_format.
  - rewrite numerical_results_no_group in Hs.
    destruct (map_result _ _) as [ys |] eqn:Hys; cbn [bind] in Hs; [| discriminate].
    inversion Hs; subst s; clear Hs.
    pose proof (row_check_Ok_inv _ _ _ _ _ Hys) as Hok.
    exists (map (fun col => value (num_all_entry float_of_text df col)) (columns df)),
           (fun _ => []).
    split; [reflexivity |]. split.
    + apply Forall2_map_r. intros col Hcol.
      destruct (Hok col Hcol) as [[y Hy] _]. rewrite Hy. simpl.
      now apply num_all_entry_format.
    + intros g gv E. discriminate.
Qed.

Lemma numerical_summary_layout_witness :
  exists (alls : list string) (groups : cell -> list string),
    [(VAR_NAME, ["Age"]);
     (ALL, ["20.00 (10.00) [10.00, 30.00]"]);
     ("Sex M", ["20.00 (14.14) [10.00, 30.00]"]);
     ("Sex F", ["20.00 (nan) [20.00, 20.00]"])]
    = (VAR_NAME, analysis_cols age_sex_table (Some "Sex")) :: (ALL, alls)
      :: map (fun gv => (group_key "Sex" gv, groups gv))
             (unique (column age_sex_table "Sex"))
    /\ Forall2 (fun col y =>
                  exists st, get_numerical_column_stats no_text age_sex_table col = Ok st
                             /\ y = format_stats st)
               (analysis_cols age_sex_table (Some "Sex")) alls
    /\ forall g gv, Some "Sex" = Some g -> In gv (unique (column age_sex_table g)) ->
         Forall2 (fun col y =>
                    exists st,
                      get_numerical_column_stats no_text (df_group age_sex_table g gv) col
                      = Ok st
                      /\ y = format_stats st)
                 (analysis_cols age_sex_table (Some "Sex")) (groups gv).
Proof.
  apply (numerical_summary_layout no_text age_sex_table (Some "Sex")).
  - unfold distinct_keys.
    change (unique (column age_sex_table "Sex")) with [Str "M"; Str "F"].
    repeat constructor; simpl; intuition discriminate.
  - vm_compute. reflexivity.
Defined.

(** ** Columns without values and tables without rows *)

Lemma astype_float_all_missing (fot : string -> result float) (l : list cell) :
  (forall c, In c l -> c = NA) ->
  exists v, astype_float fot l = Ok v /\ notna v = [].
Proof.
  unfold astype_float. induction l as [| a l IH]; intro H; simpl.
  - now exists [].
  - rewrite (H a (or_introl eq_refl)). simpl.
    destruct IH as [v [Hv Hn]]; [intros; apply H; now right |].
    rewrite Hv. simpl. exists (fnan :: v). split; [reflexivity | exact Hn].
Qed.

Lemma dropna_all_missing (l : list cell) :
  (forall c, In c l -> c = NA) -> dropna l = [].
Proof.
  induction l as [| a l IH]; intro H; simpl; [reflexivity |].
  rewrite (H a (or_introl eq_refl)). simpl. apply IH. intros. apply H. now right.
Qed.

Lemma isna_sum_all_missing (l : list cell) :
  (forall c, In c l -> c = NA) -> isna_sum l = List.length l.
Proof.
  unfold isna_sum. induction l as [| a l IH]; intro H; simpl; [reflexivity |].
  rewrite (H a (or_introl eq_refl)). simpl. f_equal. apply IH.
  intros. apply H. now right.
Qed.

(** A column whose cells are all missing has no category, so it gives no row
    to the categorical summary (and the total of its percentages is zero);
    its numerical statistics are all nan, printed "nan (nan) [nan, nan]". *)
Theorem column_without_values (float_of_text : string -> result float)
  (df : DataFrame) (col : string) :
  (forall c, In c (column df col) -> c = NA) ->
  categories df col = []
  /\ total df col = 0
  /\ get_numerical_column_stats float_of_text df col = Ok (fnan, fnan, fnan, fnan)
  /\ num_all_entry float_of_text df col = Ok "nan (nan) [nan, nan]".
Proof.
  intro H.
  assert (Hstats : get_numerical_column_stats float_of_text df col
                   = Ok (fnan, fnan, fnan, fnan)).
  { unfold get_numerical_column_stats.
    destruct (astype_float_all_missing float_of_text (column df col) H)
      as [v [Hv Hn]].
    rewrite Hv. cbn [bind].
    unfold series_mean, series_std, series_min, series_max, count_notna.
    rewrite Hn. reflexivity. }
  split; [| split; [| split]].
  - unfold categories. now rewrite (dropna_all_missing _ H).
  - unfold total, shape0. rewrite (isna_sum_all_missing _ H).
    unfold column. rewrite length_map. lia.
  - exact Hstats.
  - unfold num_all_entry. rewrite Hstats. reflexivity.
Qed.

Lemma column_without_values_witness :
  categories blank_column_table "Weight" = []
  /\ total blank_column_table "Weight" = 0
  /\ get_numerical_column_stats no_text blank_column_table "Weight"
     = Ok (fnan, fnan, fnan, fnan)
  /\ num_all_entry no_text blank_column_table "Weight" = Ok "nan (nan) [nan, nan]".
Proof.
  apply (column_without_values no_text blank_column_table "Weight").
  intros c Hc. simpl in Hc. intuition.
Defined.

Lemma category_pairs_of_no_rows (cols0 cols : list string) :
  category_pairs_of (mkDataFrame cols0 []) cols = [].
Proof.
  unfold category_pairs_of. induction cols as [| c cols IH]; simpl; [reflexivity |].
  exact IH.
Qed.

(** On a table without rows both analyses return a summary, provided the
    grouping column, if any, is a column of the table.  There is no group
    value, hence no group column.  The categorical summary has no row; the
    numerical summary has one row per analysed column, whose statistics are
    all nan. *)
Theorem table_without_rows (float_of_text : string -> result float)
  (df : DataFrame) (group : option string) :
  rows df = [] ->
  (forall g, group = Some g -> In g (columns df)) ->
  get_categorical_var_analysis df group = Ok [(VAR_NAME, []); (ALL, [])]
  /\ get_numerical_var_analysis float_of_text df group
     = Ok [(VAR_NAME, analysis_cols df group);
           (ALL, map (fun _ => "nan (nan) [nan, nan]") (analysis_cols df group))].
Proof.
  destruct df as [cols rws]. simpl. intros -> Hg.
  assert (Hk : distinct_keys (mkDataFrame cols []) group).
  { destruct group; simpl; [| exact I].
    repeat constructor; simpl; intuition discriminate. }
  split.
  - unfold get_categorical_var_analysis. destruct group as [g |].
    + rewrite (categorical_results_group _ g Hk).
      rewrite (getitem_present (mkDataFrame cols []) g (Hg g eq_refl)). cbn [bind].
      rewrite category_pairs_of_no_rows. reflexivity.
    + rewrite categorical_results_no_group. unfold category_pairs.
      rewrite category_pairs_of_no_rows. reflexivity.
  - apply (numerical_conversion float_of_text _ group _ Hk).
    destruct group as [g |].
    + destruct (row_check_Ok [] (num_all_entry float_of_text (mkDataFrame cols []))
                  (num_group_entry float_of_text (mkDataFrame cols []) g)
                  (analysis_cols (mkDataFrame cols []) (Some g)))
        as [ys Hys].
      { intros col _. split; [now exists "nan (nan) [nan, nan]" | intros gv []]. }
      rewrite (numerical_results_group float_of_text _ g Hk).
      rewrite (getitem_present (mkDataFrame cols []) g (Hg g eq_refl)). cbn [bind].
      change (unique (column (mkDataFrame cols []) g)) with (@nil cell).
      rewrite Hys. reflexivity.
    + destruct (row_check_Ok [] (num_all_entry float_of_text (mkDataFrame cols []))
                  (fun _ _ => Ok "") cols)
        as [ys Hys].
      { intros col _. split; [now exists "nan (nan) [nan, nan]" | intros gv []]. }
      rewrite numerical_results_no_group.
      change (columns (mkDataFrame cols [])) with cols.
      rewrite Hys. reflexivity.
Qed.

Lemma table_without_rows_witness :
  get_categorical_var_analysis empty_table (Some "Sex")
  = Ok [(VAR_NAME, []); (ALL, [])]
  /\ get_numerical_var_analysis no_text empty_table (Some "Sex")
     = Ok [(VAR_NAME, ["Age"]); (ALL, ["nan (nan) [nan, nan]"])].
Proof.
  apply (table_without_rows no_text empty_table (Some "Sex")).
  - reflexivity.
  - intros g E. inversion E. simpl. tauto.
Defined.

(** * Further properties of the store gateway *)

(** ** The catalog query *)

Lemma append_inj_l (p a b : string) :
  String.append p a = String.append p b -> a = b.
Proof.
  induction p as [| x p IH]; simpl; intro H; [exact H |].
  inversion H. now apply IH.
Qed.

Lemma append_inj_r (a b s : string) :
  String.append a s = String.append b s -> a = b.
Proof.
  revert b. induction a as [| x a IH]; intros [| y b] H; simpl in H.
  - reflexivity.
  - apply (f_equal String.length) in H. simpl in H. rewrite append_length in H. lia.
  - apply (f_equal String.length) in H. simpl in H. rewrite append_length in H. lia.
  - inversion H. f_equal. now apply IH.
Qed.

Lemma escape_quotes_injective (s s' : string) :
  replace_char squote_char "''" s = replace_char squote_char "''" s' -> s = s'.
Proof.
  revert s'. induction s as [| a s IH]; intros [| b s'] H; simpl in H.
  - reflexivity.
  - destruct (Ascii.eqb b squote_char); discriminate.
  - destruct (Ascii.eqb a squote_char); discriminate.
  - destruct (Ascii.eqb a squote_char) eqn:Ea, (Ascii.eqb b squote_char) eqn:Eb;
      simpl in H.
    + apply Ascii.eqb_eq in Ea, Eb. subst. inversion H. f_equal. now apply IH.
    + inversion H. subst b. rewrite Ascii.eqb_refl in Eb. discriminate.
    + inversion H. subst a. rewrite Ascii.eqb_refl in Ea. discriminate.
    + inversion H. f_equal. now apply IH.
Qed.

Lemma escape_quotes_count (c : ascii) (s : string) :
  count_char c (replace_char squote_char "''" s)
  = count_char c s + (if Ascii.eqb squote_char c then count_char squote_char s else 0).
Proof.
  assert (Q : squote_char = "'"%char) by reflexivity. rewrite Q.
  induction s as [| a s IH]; cbn [replace_char count_char].
  - destruct (Ascii.eqb "'" c); reflexivity.
  - destruct (Ascii.eqb a "'") eqn:Ea.
    + apply Ascii.eqb_eq in Ea. subst a.
      cbn [String.append count_char]. rewrite IH, ?Ascii.eqb_refl.
      destruct (Ascii.eqb "'" c); cbn [count_char]; rewrite ?Ascii.eqb_refl; lia.
    + cbn [count_char]. rewrite IH.
      destruct (Ascii.eqb a c), (Ascii.eqb "'" c); lia.
Qed.

Lemma replace_char_doubled_quotes (s : string) :
  replace_char squote_char "''" s = doubled_quotes s.
Proof.
  induction s as [| a s IH]; simpl; [reflexivity |].
  destruct (Ascii.eqb a squote_char); simpl; now rewrite IH.
Qed.

(** The catalog query of [get_column_names] is the fixed text of the query
    up to the opening quote of the literal, then the table name with every
    single quote doubled and every other character kept, then the closing
    quote.  Hence the query holds two single quotes for the literal plus
    twice those of the name, an even number, and the other characters of the
    name as many times as the name does; and different names give different
    queries. *)
Theorem column_names_query_escapes (table_name : string) :
  column_names_query table_name
  = String.append
      "SELECT COLUMN_NAME FROM INFORMATION_SCHEMA.COLUMNS WHERE TABLE_NAME= '"
      (String.append (doubled_quotes table_name) "'")
  /\ count_char squote_char (column_names_query table_name)
     = 2 + 2 * count_char squote_char table_name
  /\ (forall c, c <> squote_char ->
                count_char c (column_names_query table_name)
                = count_char c (column_names_query "") + count_char c table_name)
  /\ (forall table_name',
        column_names_query table_name = column_names_query table_name' ->
        table_name = table_name').
Proof.
  assert (E : forall t, column_names_query t
              = String.append
                  "SELECT COLUMN_NAME FROM INFORMATION_SCHEMA.COLUMNS WHERE TABLE_NAME= '"
                  (String.append (replace_char squote_char "''" t) "'")).
  { intro t. unfold column_names_query. rewrite !fstr_cons.
    change (fstr []) with "". now rewrite append_empty_r. }
  split; [| split; [| split]].
  - now rewrite E, replace_char_doubled_quotes.
  - rewrite E, !count_char_append, escape_quotes_count, Ascii.eqb_refl.
    change (count_char squote_char
              "SELECT COLUMN_NAME FROM INFORMATION_SCHEMA.COLUMNS WHERE TABLE_NAME= '")
      with 1.
    change (count_char squote_char "'") with 1. lia.
  - intros c Hc. rewrite !E, !count_char_append, escape_quotes_count.
    destruct (Ascii.eqb squote_char c) eqn:Ec.
    + apply Ascii.eqb_eq in Ec. congruence.
    + change (replace_char squote_char "''" "") with "".
      change (count_char c "") with 0. lia.
  - intros t' H. rewrite !E in H. apply append_inj_l in H.
    apply append_inj_r in H. now apply escape_quotes_injective.
Qed.

(** ** Reordering the columns before the bulk load *)

Lemma index_list_nth (df : DataFrame) (cols : list string) (idx : list nat)
  (c : string) (j : nat) :
  map_result (fun c => match index_of c (columns df) with
                       | Some i => Ok i
                       | None => Raise (KeyError c)
                       end) cols = Ok idx ->
  index_of c cols = Some j ->
  exists i, index_of c (columns df) = Some i /\ nth_error idx j = Some i.
Proof.
  revert idx j. induction cols as [| c0 cols IH]; intros idx j Hm Hj; simpl in *;
    [discriminate |].
  destruct (index_of c0 (columns df)) as [i0 |] eqn:E0; simpl in Hm; [| discriminate].
  destruct (map_result _ cols) as [idx' |] eqn:Em; simpl in Hm; [| discriminate].
  inversion Hm; subst idx; clear Hm.
  destruct (String.eqb c0 c) eqn:Ec.
  - apply String.eqb_eq in Ec. subst c0. inversion Hj; subst j.
    exists i0. split; [exact E0 | reflexivity].
  - destruct (index_of c cols) as [j' |] eqn:Ej; simpl in Hj; [| discriminate].
    inversion Hj; subst j. simpl. now apply (IH idx' j').
Qed.

Lemma index_of_In (c : string) (cols : list string) :
  In c cols -> exists j, index_of c cols = Some j.
Proof.
  intro H. destruct (index_of c cols) as [j |] eqn:E; [now exists j |].
  now apply index_of_None in E.
Qed.

(** [df[types.keys()]] when the table has all the columns asked for: the new
    table has these columns, in this order, as many rows, and under each of
    these labels the same cells as before. *)
Theorem select_columns_reorders (df : DataFrame) (cols : list string)
  (df' : DataFrame) :
  select_columns df cols = Ok df' ->
  columns df' = cols
  /\ List.length (rows df') = List.length (rows df)
  /\ forall c, In c cols -> column df' c = column df c.
Proof.
  unfold select_columns. intro H.
  destruct (filter _ cols); [| discriminate].
  destruct (map_result _ cols) as [idx |] eqn:Em; cbn [bind] in H; [| discriminate].
  inversion H; subst df'; clear H. cbn [columns rows].
  split; [reflexivity |]. split; [apply length_map |].
  intros c Hc. unfold column, cell_at. cbn [columns rows]. rewrite map_map.
  destruct (index_of_In c cols Hc) as [j Hj].
  destruct (index_list_nth df cols idx c j Em Hj) as [i [Hi Hn]].
  rewrite Hj, Hi. apply map_ext. intro r.
  apply nth_error_nth. rewrite nth_error_map, Hn. reflexivity.
Qed.

Lemma select_columns_reorders_witness :
  columns (mkDataFrame ["name"; "Age"] [[Str "Ann"; Num 31]; [Str "Bob"; Num 47]])
  = ["name"; "Age"]
  /\ List.length (rows (mkDataFrame ["name"; "Age"]
                          [[Str "Ann"; Num 31]; [Str "Bob"; Num 47]]))
     = List.length (rows patients_table)
  /\ forall c, In c ["name"; "Age"] ->
       column (mkDataFrame ["name"; "Age"] [[Str "Ann"; Num 31]; [Str "Bob"; Num 47]]) c
       = column patients_table c.
Proof.
  apply (select_columns_reorders patients_table ["name"; "Age"]).
  reflexivity.
Defined.

Lemma first_labels_In (l acc : list string) (c : string) :
  In c (first_labels acc l) <-> In c l /\ ~ In c acc.
Proof.
  revert acc. induction l as [| a l IH]; intro acc; simpl; [tauto |].
  destruct (existsb (String.eqb a) acc) eqn:E.
  - apply existsb_exists in E. destruct E as [x [Hx Ex]].
    apply String.eqb_eq in Ex. subst x. rewrite IH. split.
    + intros [H1 H2]. split; auto.
    + intros [[H1 | H1] H2]; [subst; contradiction | auto].
  - assert (Hn : ~ In a acc).
    { intro Hin. assert (existsb (String.eqb a) acc = true); [| congruence].
      apply existsb_exists. exists a. split; [exact Hin | apply String.eqb_refl]. }
    simpl. rewrite IH. simpl. split.
    + intros [H | [H1 H2]]; [subst; auto | split; auto].
    + intros [[H1 | H1] H2]; [auto |].
      destruct (string_dec a c) as [-> | Hne]; [auto | right].
      split; [assumption | intros [H | H]; contradiction].
Qed.

Lemma has_label_In (df : DataFrame) (c : string) :
  has_label df c = true <-> In c (columns df).
Proof.
  unfold has_label. rewrite existsb_exists. split.
  - intros [x [Hx Ex]]. apply String.eqb_eq in Ex. now subst.
  - intro H. exists c. split; [exact H | apply String.eqb_refl].
Qed.

(** [df[types.keys()]] when the table lacks columns asked for: one
    [KeyError] naming them all. *)
Lemma select_columns_missing (df : DataFrame) (cols : list string) :
  filter (fun c => negb (has_label df c)) cols <> [] ->
  select_columns df cols
  = Raise (KeyErrorNotInIndex
             (first_labels [] (filter (fun c => negb (has_label df c)) cols))).
Proof.
  intro H. unfold select_columns.
  destruct (filter (fun c => negb (has_label df c)) cols); [congruence | reflexivity].
Qed.

(** ** Creating and filling a table *)

Lemma temp_kept (fs : list string) :
  In TEMP (if existsb (String.eqb TEMP) fs then fs else TEMP :: fs).
Proof.
  destruct (existsb (String.eqb TEMP) fs) eqn:E; [| now left].
  apply existsb_exists in E. destruct E as [x [Hx Ex]].
  apply String.eqb_eq in Ex. now subst.
Qed.

Lemma other_files_kept (fs : list string) (f : string) :
  f <> TEMP ->
  (In f (filter (fun f' => negb (String.eqb TEMP f'))
                (if existsb (String.eqb TEMP) fs then fs else TEMP :: fs))
   <-> In f fs).
Proof.
  intro Hf. rewrite filter_In.
  assert (E : negb (String.eqb TEMP f) = true).
  { destruct (String.eqb TEMP f) eqn:E; [| reflexivity].
    apply String.eqb_eq in E. congruence. }
  destruct (existsb (String.eqb TEMP) fs); simpl; intuition congruence.
Qed.

(** A call of [create_and_fill_table] that returns normally, made with no
    transaction open: the table had every column of the type map; the
    requests were, in order, cursor, CREATE TABLE, commit, cursor, bulk copy
    of the reordered table with separator "!" and null " ", commit; the
    store keeps the CREATE TABLE statement and the copy; the file "temp" of
    the working directory is gone, whether it was there before the call or
    not, and the other files are untouched. *)
Theorem create_and_fill_table_success (B : backend) (dm : DataManager)
  (df : DataFrame) (table_name : string) (types : list (string * string))
  (primary_key : option (list string)) (w : world) :
  pending (replay (log w)) = [] ->
  broken (replay (log w)) = false ->
  fst (create_and_fill_table B dm df table_name types primary_key w) = Ok tt ->
  exists df',
    select_columns df (map fst types) = Ok df'
    /\ log (snd (create_and_fill_table B dm df table_name types primary_key w))
       = log w
         ++ [(Cursor, None);
             (Execute (create_table_query dm table_name types primary_key), None);
             (Commit, None);
             (Cursor, None);
             (CopyFrom (fstr [schema dm; "."; dquote; table_name; dquote]) "!" " " df',
              None);
             (Commit, None)]
    /\ ~ In TEMP (files (snd (create_and_fill_table B dm df table_name types
                                primary_key w)))
    /\ (forall f, f <> TEMP ->
          (In f (files (snd (create_and_fill_table B dm df table_name types
                               primary_key w)))
           <-> In f (files w)))
    /\ durable (replay (log (snd (create_and_fill_table B dm df table_name types
                                    primary_key w))))
       = durable (replay (log w))
         ++ [Execute (create_table_query dm table_name types primary_key);
             CopyFrom (fstr [schema dm; "."; dquote; table_name; dquote]) "!" " " df'].
Proof.
  intros Hp Hb.
  assert (Hstore : forall q t df',
             durable (store_step
                        (store_step
                           (store_step
                              (store_step
                                 (store_step
                                    (store_step (replay (log w)) (Cursor, None))
                                    (Execute q, None))
                                 (Commit, None))
                              (Cursor, None))
                           (CopyFrom t "!" " " df', None))
                        (Commit, None))
             = durable (replay (log w)) ++ [Execute q; CopyFrom t "!" " " df']).
  { intros q t df'. destruct (replay (log w)) as [d p b].
    simpl in Hp, Hb. subst. simpl. now rewrite <- app_assoc. }
  unfold_gateway. remember (create_table_query dm table_name types primary_key) as q.
  remember (fstr [schema dm; "."; dquote; table_name; dquote]) as t.
  ask_backend; [intro H; discriminate H |].
  ask_backend; [intro H; discriminate H |].
  ask_backend; [intro H; discriminate H |].
  destruct (select_columns df (map fst types)) as [df' |]; cbn [log files fst snd];
    [| intro H; discriminate H].
  ask_backend; [intro H; discriminate H |].
  ask_backend; rewrite ?temp_written; cbn [log files fst snd];
    [intro H; discriminate H |].
  ask_backend; rewrite ?temp_written; cbn [log files fst snd];
    [intro H; discriminate H |].
  intros _. exists df'. split; [reflexivity |]. split.
  { repeat rewrite <- app_assoc. reflexivity. }
  split; [apply temp_removed |].
  split; [intros f Hf; now apply other_files_kept |].
  rewrite !replay_snoc. apply Hstore.
Qed.

Lemma create_and_fill_table_success_witness :
  exists df',
    select_columns patients_table (map fst patients_types) = Ok df'
    /\ log (snd (create_and_fill_table accepting_backend example_manager
                   patients_table "patients" patients_types None
                   (mkWorld [] ["temp"; "notes.txt"])))
       = log (mkWorld [] ["temp"; "notes.txt"])
         ++ [(Cursor, None);
             (Execute (create_table_query example_manager "patients" patients_types None),
              None);
             (Commit, None);
             (Cursor, None);
             (CopyFrom (fstr [schema example_manager; "."; dquote; "patients"; dquote])
                       "!" " " df',
              None);
             (Commit, None)]
    /\ ~ In TEMP (files (snd (create_and_fill_table accepting_backend example_manager
                                patients_table "patients" patients_types None
                                (mkWorld [] ["temp"; "notes.txt"]))))
    /\ (forall f, f <> TEMP ->
          (In f (files (snd (create_and_fill_table accepting_backend example_manager
                               patients_table "patients" patients_types None
                               (mkWorld [] ["temp"; "notes.txt"])))))
           <-> In f (files (mkWorld [] ["temp"; "notes.txt"])))
    /\ durable (replay (log (snd (create_and_fill_table accepting_backend
                                    example_manager patients_table "patients"
                                    patients_types None
                                    (mkWorld [] ["temp"; "notes.txt"])))))
       = durable (replay (log (mkWorld [] ["temp"; "notes.txt"])))
         ++ [Execute (create_table_query example_manager "patients" patients_types None);
             CopyFrom (fstr [schema example_manager; "."; dquote; "patients"; dquote])
                      "!" " " df'].
Proof.
  apply (create_and_fill_table_success accepting_backend example_manager
           patients_table "patients" patients_types None
           (mkWorld [] ["temp"; "notes.txt"])); reflexivity.
Defined.

(** A table that lacks columns of the type map: [create_and_fill_table]
    first creates the table and commits, and only then fails, with one
    [KeyError] that names every column of the type map the table does not
    have.  No file is written and nothing more is sent to the backend: the
    requests of the call are the cursor, the CREATE TABLE statement and its
    commit, all accepted. *)
Theorem create_and_fill_table_missing_column (B : backend) (dm : DataManager)
  (df : DataFrame) (table_name : string) (types : list (string * string))
  (primary_key : option (list string)) (w : world) :
  fst (_create_table B dm table_name types primary_key w) = Ok tt ->
  filter (fun c => negb (has_label df c)) (map fst types) <> [] ->
  exists missing,
    fst (create_and_fill_table B dm df table_name types primary_key w)
    = Raise (KeyErrorNotInIndex missing)
    /\ (forall c, In c missing <-> In c (map fst types) /\ ~ In c (columns df))
    /\ files (snd (create_and_fill_table B dm df table_name types primary_key w))
       = files w
    /\ log (snd (create_and_fill_table B dm df table_name types primary_key w))
       = log w
         ++ [(Cursor, None);
             (Execute (create_table_query dm table_name types primary_key), None);
             (Commit, None)].
Proof.
  intros Hc Hmiss.
  pose proof (select_columns_missing df (map fst types) Hmiss) as Hsel.
  exists (first_labels [] (filter (fun c => negb (has_label df c)) (map fst types))).
  revert Hc. unfold_gateway.
  remember (create_table_query dm table_name types primary_key) as q.
  ask_backend; [intro H; discriminate H |].
  ask_backend; [intro H; discriminate H |].
  ask_backend; [intro H; discriminate H |].
  intros _. rewrite Hsel. cbn [log files fst snd].
  split; [reflexivity |]. split.
  { intro c. rewrite first_labels_In, filter_In. simpl.
    rewrite negb_true_iff, <- has_label_In.
    destruct (has_label df c); intuition congruence. }
  split; [reflexivity |].
  repeat rewrite <- app_assoc. reflexivity.
Qed.

Lemma create_and_fill_table_missing_column_witness :
  exists missing,
    fst (create_and_fill_table accepting_backend example_manager patients_table
           "patients"
           [("name", "text"); ("Weight", "numeric"); ("Age", "numeric");
            ("Height", "numeric")]
           None fresh_world)
    = Raise (KeyErrorNotInIndex missing)
    /\ (forall c, In c missing
                  <-> In c (map fst [("name", "text"); ("Weight", "numeric");
                                     ("Age", "numeric"); ("Height", "numeric")])
                      /\ ~ In c (columns patients_table))
    /\ files (snd (create_and_fill_table accepting_backend example_manager
                     patients_table "patients"
                     [("name", "text"); ("Weight", "numeric"); ("Age", "numeric");
                      ("Height", "numeric")]
                     None fresh_world))
       = files fresh_world
    /\ log (snd (create_and_fill_table accepting_backend example_manager
                   patients_table "patients"
                   [("name", "text"); ("Weight", "numeric"); ("Age", "numeric");
                    ("Height", "numeric")]
                   None fresh_world))
       = log fresh_world
         ++ [(Cursor, None);
             (Execute (create_table_query example_manager "patients"
                         [("name", "text"); ("Weight", "numeric"); ("Age", "numeric");
                          ("Height", "numeric")]
                         None), None);
             (Commit, None)].
Proof.
  apply (create_and_fill_table_missing_column accepting_backend example_manager
           patients_table "patients"
           [("name", "text"); ("Weight", "numeric"); ("Age", "numeric");
            ("Height", "numeric")]
           None fresh_world).
  - reflexivity.
  - vm_compute. discriminate.
Defined.

(** When the cursor of the bulk load cannot be opened, the creation of the
    table having succeeded: the error of the backend reaches the caller as it
    is, and the temporary file, already written, stays in the working
    directory; the cursor is opened outside the [try] that removes the
    file. *)
Theorem load_cursor_failure_leaves_file (B : backend) (dm : DataManager)
  (df df' : DataFrame) (table_name : string) (types : list (string * string))
  (primary_key : option (list string)) (w : world) (e : pgerror) :
  fst (_create_table B dm table_name types primary_key w) = Ok tt ->
  select_columns df (map fst types) = Ok df' ->
  fails B (log (snd (_create_table B dm table_name types primary_key w))) Cursor
  = Some e ->
  fst (create_and_fill_table B dm df table_name types primary_key w)
  = Raise (Psycopg2Error e)
  /\ In TEMP (files (snd (create_and_fill_table B dm df table_name types
                            primary_key w))).
Proof.
  intros Hc Hsel. revert Hc. unfold_gateway.
  remember (create_table_query dm table_name types primary_key) as q.
  ask_backend; [intro H; discriminate H |].
  ask_backend; [intro H; discriminate H |].
  ask_backend; [intro H; discriminate H |].
  intros _ Hf. rewrite Hsel. cbn [log files fst snd].
  rewrite Hf. cbn [log files fst snd].
  split; [reflexivity | apply temp_kept].
Qed.

Lemma load_cursor_failure_leaves_file_witness :
  fst (create_and_fill_table second_cursor_failing_backend example_manager
         patients_table "patients" patients_types None fresh_world)
  = Raise (Psycopg2Error (Some "connection already closed"))
  /\ In TEMP (files (snd (create_and_fill_table second_cursor_failing_backend
                            example_manager patients_table "patients"
                            patients_types None fresh_world))).
Proof.
  apply (load_cursor_failure_leaves_file second_cursor_failing_backend
           example_manager patients_table
           (mkDataFrame ["name"; "Age"] [[Str "Ann"; Num 31]; [Str "Bob"; Num 47]])
           "patients" patients_types None fresh_world
           (Some "connection already closed")); reflexivity.
Defined.

(** * Row permutations and the categorical analysis *)

Lemma filter_length_Permutation {A : Type} (p : A -> bool) (l l' : list A) :
  Permutation l l' -> List.length (filter p l) = List.length (filter p l').
Proof.
  induction 1 as [| x l l' _ IH | x y l | l l' l'' _ IH1 _ IH2]; simpl.
  - reflexivity.
  - destruct (p x); simpl; now rewrite IH.
  - destruct (p x), (p y); reflexivity.
  - now rewrite IH1.
Qed.

Lemma cell_at_same_header (df df' : DataFrame) (col : string) :
  columns df' = columns df -> cell_at df' col = cell_at df col.
Proof.
  intro H. unfold cell_at. now rewrite H.
Qed.

(** The counts of the categorical analysis do not depend on the order of the
    rows: when the rows of a table are permuted, every column has the same
    categories (possibly met in another order), the same number of
    non-missing cells and the same count for each value, over the whole
    table and within each group.  Counts are integers, so the entries built
    from them are the same; only the order of the rows and of the group
    columns of the summary can change. *)
Theorem categorical_counts_row_permutation (df df' : DataFrame) :
  columns df' = columns df ->
  Permutation (rows df) (rows df') ->
  forall col v g gv,
    Permutation (categories df col) (categories df' col)
    /\ total df' col = total df col
    /\ category_total df' col v = category_total df col v
    /\ group_total df' g gv col = group_total df g gv col
    /\ sub_category_total df' g gv col v = sub_category_total df g gv col v.
Proof.
  intros Hc Hp col v g gv.
  pose proof (cell_at_same_header df df' col Hc) as Ecol.
  pose proof (cell_at_same_header df df' g Hc) as Eg.
  split; [| split; [| split; [| split]]].
  - unfold categories. apply unique_Permutation.
    unfold dropna, column. rewrite Ecol.
    apply filter_Permutation. now apply Permutation_map.
  - unfold total, shape0, isna_sum, column. rewrite Ecol, !filter_map_length.
    rewrite (Permutation_length Hp).
    now rewrite (filter_length_Permutation _ _ _ Hp).
  - unfold category_total, shape0, select_rows. cbn [rows]. rewrite Ecol.
    symmetry. now apply filter_length_Permutation.
  - unfold group_total, dropna, column, select_rows, cell_at. cbn [rows columns].
    rewrite Hc, !filter_map_length, !filter_filter_and.
    symmetry. now apply filter_length_Permutation.
  - unfold sub_category_total, shape0, select_rows. cbn [rows]. rewrite Ecol, Eg.
    symmetry. now apply filter_length_Permutation.
Qed.

Lemma categorical_counts_row_permutation_witness :
  Permutation (categories two_rows_table "Age") (categories two_rows_swapped "Age")
  /\ total two_rows_swapped "Age" = total two_rows_table "Age"
  /\ category_total two_rows_swapped "Age" (Num 10)
     = category_total two_rows_table "Age" (Num 10)
  /\ group_total two_rows_swapped "Sex" (Str "M") "Age"
     = group_total two_rows_table "Sex" (Str "M") "Age"
  /\ sub_category_total two_rows_swapped "Sex" (Str "M") "Age" (Num 10)
     = sub_category_total two_rows_table "Sex" (Str "M") "Age" (Num 10).
Proof.
  apply (categorical_counts_row_permutation two_rows_table two_rows_swapped).
  - reflexivity.
  - apply perm_swap.
Defined.

(** * The requests of a call *)



(** * Reading *)

Lemma durable_step_not_commit (s : store) (r : request) (o : option pgerror) :
  r <> Commit -> durable (store_step s (r, o)) = durable s.
Proof.
  intro H. destruct r, o; simpl; try reflexivity; congruence.
Qed.

Ltac close_read :=
  split; [reflexivity |];
  split;
  [ rewrite ?replay_snoc, ?durable_step_not_commit by discriminate; reflexivity
  | eexists; split;
    [ repeat rewrite <- app_assoc; cbn [app]; reflexivity
    | cbn [map fst In]; intuition discriminate ] ].

(** [get_table] and [get_column_names] only read: whatever the backend
    answers, they leave the files as they are, send no commit, and what the
    store keeps is unchanged. *)
Theorem reads_do_not_commit (B : backend) (dm : DataManager) (table_name : string)
  (cols : option (list string)) (w : world) :
  (files (snd (get_table B dm table_name cols w)) = files w
   /\ durable (replay (log (snd (get_table B dm table_name cols w))))
      = durable (replay (log w))
   /\ exists new, log (snd (get_table B dm table_name cols w)) = log w ++ new
                  /\ ~ In Commit (map fst new))
  /\ (files (snd (get_column_names B dm table_name w)) = files w
      /\ durable (replay (log (snd (get_column_names B dm table_name w))))
         = durable (replay (log w))
      /\ exists new, log (snd (get_column_names B dm table_name w)) = log w ++ new
                     /\ ~ In Commit (map fst new)).
Proof.
  split.
  - unfold_gateway. remember (get_table_query dm table_name cols) as q.
    ask_backend; [close_read |].
    ask_backend; [close_read |].
    ask_backend; close_read.
  - unfold_gateway. remember (column_names_query table_name) as q.
    ask_backend; [close_read |].
    ask_backend; [close_read |].
    ask_backend; close_read.
Qed.

(** What the reads return when the backend accepts their requests:
    [get_table] a table whose column names are those of the description of
    the cursor after the query and whose rows are the rows fetched;
    [get_column_names] the first field of every row fetched. *)
Theorem reads_return_what_was_fetched (B : backend) (dm : DataManager)
  (table_name : string) (cols : option (list string)) (w : world) :
  fails B (log w) Cursor = None ->
  (forall q, fails B (log w ++ [(Cursor, None)]) (Execute q) = None) ->
  (forall q, fails B ((log w ++ [(Cursor, None)]) ++ [(Execute q, None)]) FetchAll
             = None) ->
  fst (get_table B dm table_name cols w)
  = Ok (mkDataFrame
          (description B ((log w ++ [(Cursor, None)])
                          ++ [(Execute (get_table_query dm table_name cols), None)]))
          (fetched B (((log w ++ [(Cursor, None)])
                       ++ [(Execute (get_table_query dm table_name cols), None)])
                      ++ [(FetchAll, None)])))
  /\ fst (get_column_names B dm table_name w)
     = Ok (map (fun r : row => nth 0 r NA)
               (fetched B (((log w ++ [(Cursor, None)])
                            ++ [(Execute (column_names_query table_name), None)])
                           ++ [(FetchAll, None)]))).
Proof.
  intros Hc He Hf. split.
  - unfold_gateway. rewrite Hc. cbn [log files fst snd].
    rewrite He. cbn [log files fst snd]. rewrite Hf. reflexivity.
  - unfold_gateway. rewrite Hc. cbn [log files fst snd].
    rewrite He. cbn [log files fst snd]. rewrite Hf. reflexivity.
Qed.

Lemma reads_return_what_was_fetched_witness :
  fst (get_table serving_backend example_manager "patients" None fresh_world)
  = Ok (mkDataFrame ["name"] [[Str "Ann"]; [Str "Bob"]])
  /\ fst (get_column_names serving_backend example_manager "patients" fresh_world)
     = Ok [Str "Ann"; Str "Bob"].
Proof.
  apply (reads_return_what_was_fetched serving_backend example_manager "patients"
           None fresh_world); reflexivity.
Defined.
